(** * Interview call session controller (components/Agent.tsx) and the
      feedback action (lib/actions/general.action.ts)

    A shallow embedding of the React component [Agent] and of the server
    action [createFeedback].  React state is a record, every handler is a
    function from the state to the new state and the list of effects it
    performs on the outside world (transport calls, navigation, console
    output, gateway invocations).  The voice transport [vapi] is an event
    emitter: its listener registry is part of the world, and transport
    events reach the component only through the listeners registered in it. *)

From Stdlib Require Import Ascii List Bool Arith Lia.
From Stdlib Require String.
From stdpp Require Import base option list strings gmap sorting.
Import ListNotations.

(** ** JavaScript helpers used by the two source files *)

Module Js.

(** Truthiness of a value of type [string | undefined]: [undefined] and
    the empty string are falsy. *)
Definition truthy (v : option string) : bool :=
  match v with
  | Some s => negb (String.eqb s "")
  | None => false
  end.

(** A [string | undefined] value interpolated in a template literal. *)
Definition to_str (v : option string) : string :=
  match v with
  | Some s => s
  | None => "undefined"
  end.

Definition newline : string := String "010"%char EmptyString.

(** [Array.prototype.join]: the result starts empty; element [k] is
    appended after the separator whenever [k > 0]. *)
Fixpoint join_from (sep : string) (k : nat) (R : string) (l : list string)
  : string :=
  match l with
  | [] => R
  | x :: l' =>
      let R' := match k with O => R | S _ => R +:+ sep end in
      join_from sep (S k) (R' +:+ x) l'
  end.

Definition join (sep : string) (l : list string) : string :=
  join_from sep 0 "" l.

End Js.

(** ** components/Agent.tsx *)

Module Agent.

Inductive CallStatus := INACTIVE | CONNECTING | ACTIVE | FINISHED.

Definition CallStatus_eqb (a b : CallStatus) : bool :=
  match a, b with
  | INACTIVE, INACTIVE | CONNECTING, CONNECTING
  | ACTIVE, ACTIVE | FINISHED, FINISHED => true
  | _, _ => false
  end.

Inductive Role := user | system | assistant.

Record SavedMessage := { role : Role; content : string }.

(** A transport message.  Only [type] and [transcriptType] are tested;
    [role] and [transcript] are read on final transcripts. *)
Record Message := {
  m_type : string;
  m_role : Role;
  m_transcript : string;
  m_transcriptType : string
}.

Record AgentProps := {
  userName : string;
  userId : option string;
  interviewId : option string;
  feedbackId : option string;
  type : string;
  questions : option (list string)
}.

(** The part of the assistant configuration exported by constants/index.ts
    as [interviewer] that identifies it (voice tuning numbers and the
    prompt text are left out). *)
Record CreateAssistantDTO := {
  name : string;
  firstMessage : string;
  transcriber : string * string * string;
  voice : string * string;
  model : string * string
}.

Definition interviewer : CreateAssistantDTO := {|
  name := "Interviewer";
  firstMessage := "Hello! Thank you for taking the time to speak with me today. I'm excited to learn more about you and your experience.";
  transcriber := ("deepgram", "nova-2", "en");
  voice := ("11labs", "sarah");
  model := ("openai", "gpt-4")
|}.

Record CreateFeedbackParams := {
  p_interviewId : option string;
  p_userId : option string;
  p_transcript : list SavedMessage;
  p_feedbackId : option string
}.

(** What [createFeedback] resolves to. *)
Record FeedbackResult := { success : bool; r_feedbackId : option string }.

Inductive StartTarget :=
| Workflow (id : option string)
| Assistant (a : CreateAssistantDTO).

(** Everything the component does to the outside world. *)
Inductive Effect :=
| ConsoleLog (args : list string)
| VapiStart (target : StartTarget) (variableValues : list (string * option string))
| VapiStop
| RouterPush (path : string)
| CreateFeedbackCall (params : CreateFeedbackParams).

(** The four [useState] cells.  [messagesRef] is the identity of the array
    held in [messages]: every [[...prev, newMessage]] allocates a new
    array, and the dependency list of an effect compares arrays by
    identity. *)
Record State := {
  callStatus : CallStatus;
  messages : list SavedMessage;
  messagesRef : nat;
  isSpeaking : bool;
  lastMessage : string
}.

Definition initial : State := {|
  callStatus := INACTIVE;
  messages := [];
  messagesRef := 0;
  isSpeaking := false;
  lastMessage := ""
|}.

Definition setCallStatus (s : CallStatus) (st : State) : State :=
  {| callStatus := s; messages := messages st; messagesRef := messagesRef st;
     isSpeaking := isSpeaking st; lastMessage := lastMessage st |}.

Definition setMessages (f : list SavedMessage -> list SavedMessage) (st : State)
  : State :=
  {| callStatus := callStatus st; messages := f (messages st);
     messagesRef := S (messagesRef st);
     isSpeaking := isSpeaking st; lastMessage := lastMessage st |}.

Definition setIsSpeaking (b : bool) (st : State) : State :=
  {| callStatus := callStatus st; messages := messages st;
     messagesRef := messagesRef st;
     isSpeaking := b; lastMessage := lastMessage st |}.

Definition setLastMessage (s : string) (st : State) : State :=
  {| callStatus := callStatus st; messages := messages st;
     messagesRef := messagesRef st;
     isSpeaking := isSpeaking st; lastMessage := s |}.

(** A handler: new state and the effects performed, in order. *)
Definition Handler := State -> State * list Effect.

(** *** Transport listeners (first [useEffect]) *)

Definition onCallStart : Handler :=
  fun st => (setCallStatus ACTIVE st, []).

Definition onCallEnd : Handler :=
  fun st => (setCallStatus FINISHED st, []).

Definition is_final_transcript (message : Message) : bool :=
  String.eqb (m_type message) "transcript"
  && String.eqb (m_transcriptType message) "final".

Definition onMessage (message : Message) : Handler :=
  fun st =>
    if is_final_transcript message then
      let newMessage :=
        {| role := m_role message; content := m_transcript message |} in
      (setMessages (fun prev => prev ++ [newMessage]) st, [])
    else (st, []).

Definition onSpeechStart : Handler :=
  fun st => (setIsSpeaking true st, [ConsoleLog ["speech start"]]).

Definition onSpeechEnd : Handler :=
  fun st => (setIsSpeaking false st, [ConsoleLog ["speech end"]]).

Definition onError (error : string) : Handler :=
  fun st => (st, [ConsoleLog ["Error:"; error]]).

Section Instance.

(** One mounted component: its props and the workflow identifier read
    from [process.env.NEXT_PUBLIC_VAPI_WORKFLOW_ID]. *)
Variable props : AgentProps.
Variable NEXT_PUBLIC_VAPI_WORKFLOW_ID : option string.

Definition is_generate : bool := String.eqb (type props) "generate".

(** *** [handleCall] *)

Definition formattedQuestions : string :=
  match questions props with
  | Some qs => Js.join Js.newline (map (fun question => "- " +:+ question) qs)
  | None => ""
  end.

Definition handleCall : Handler :=
  fun st =>
    let st := setCallStatus CONNECTING st in
    if is_generate then
      (st, [VapiStart (Workflow NEXT_PUBLIC_VAPI_WORKFLOW_ID)
              [("username", Some (userName props));
               ("userid", userId props)]])
    else
      (st, [VapiStart (Assistant interviewer)
              [("questions", Some formattedQuestions)]]).

(** *** [handleDisconnect] *)

Definition handleDisconnect : Handler :=
  fun st => (setCallStatus FINISHED st, [VapiStop]).

(** *** Second [useEffect]: last message and call completion *)

(** [handleGenerateFeedback] up to its [await]. *)
Definition handleGenerateFeedback (msgs : list SavedMessage) : list Effect :=
  [ConsoleLog ["handleGenerateFeedback"];
   CreateFeedbackCall {| p_interviewId := interviewId props;
                         p_userId := userId props;
                         p_transcript := msgs;
                         p_feedbackId := feedbackId props |}].

(** [handleGenerateFeedback] from the point where [createFeedback]
    has resolved. *)
Definition handleGenerateFeedback_resume (res : FeedbackResult) : list Effect :=
  if success res && Js.truthy (r_feedbackId res) then
    [RouterPush ("/interview/" +:+ Js.to_str (interviewId props) +:+ "/feedback")]
  else
    [ConsoleLog ["Error saving feedback"]; RouterPush "/"].

Definition completionEffect : Handler :=
  fun st =>
    let st' :=
      match last (messages st) with
      | Some m => setLastMessage (content m) st
      | None => st
      end in
    if CallStatus_eqb (callStatus st) FINISHED then
      if is_generate then (st', [RouterPush "/"])
      else (st', handleGenerateFeedback (messages st))
    else (st', []).

(** *** The call button (rendered output) *)

Inductive Button := BtnCall | BtnDisconnect.

Definition Button_eqb (a b : Button) : bool :=
  match a, b with
  | BtnCall, BtnCall | BtnDisconnect, BtnDisconnect => true
  | _, _ => false
  end.

(** [callStatus !== "ACTIVE" ? <start button> : <end button>] *)
Definition callButton (st : State) : Button :=
  if negb (CallStatus_eqb (callStatus st) ACTIVE) then BtnCall
  else BtnDisconnect.

Definition onClick (b : Button) : Handler :=
  match b with
  | BtnCall => handleCall
  | BtnDisconnect => handleDisconnect
  end.

(** *** The transport as an event emitter

    [vapi.on] appends a listener to the registry, [vapi.off] removes the
    most recently added registration of that listener for that event,
    and an emitted event calls the listeners registered under its name
    in registration order.  The registry is shared: it may hold
    listeners that belong to other components. *)

Inductive Listener :=
| OnCallStart | OnCallEnd | OnMessage
| OnSpeechStart | OnSpeechEnd | OnError
| Foreign (id : nat).

Definition Listener_eqb (a b : Listener) : bool :=
  match a, b with
  | OnCallStart, OnCallStart | OnCallEnd, OnCallEnd
  | OnMessage, OnMessage | OnSpeechStart, OnSpeechStart
  | OnSpeechEnd, OnSpeechEnd | OnError, OnError => true
  | Foreign i, Foreign j => Nat.eqb i j
  | _, _ => false
  end.

Definition Subscription : Type := string * Listener.

Definition Subscription_eqb (a b : Subscription) : bool :=
  String.eqb (fst a) (fst b) && Listener_eqb (snd a) (snd b).

Definition on (event : string) (fn : Listener) (reg : list Subscription)
  : list Subscription :=
  reg ++ [(event, fn)].

Fixpoint remove_first (s : Subscription) (l : list Subscription)
  : list Subscription :=
  match l with
  | [] => []
  | x :: l' => if Subscription_eqb s x then l' else x :: remove_first s l'
  end.

Definition off (event : string) (fn : Listener) (reg : list Subscription)
  : list Subscription :=
  rev (remove_first (event, fn) (rev reg)).

Inductive TransportEvent :=
| EvCallStart
| EvCallEnd
| EvMessage (m : Message)
| EvSpeechStart
| EvSpeechEnd
| EvError (e : string).

Definition event_name (ev : TransportEvent) : string :=
  match ev with
  | EvCallStart => "call-start"
  | EvCallEnd => "call-end"
  | EvMessage _ => "message"
  | EvSpeechStart => "speech-start"
  | EvSpeechEnd => "speech-end"
  | EvError _ => "error"
  end.

Definition skip : Handler := fun st => (st, []).

Definition andThen (h1 h2 : Handler) : Handler :=
  fun st =>
    let (st1, e1) := h1 st in
    let (st2, e2) := h2 st1 in
    (st2, e1 ++ e2).

(** One listener called with the payload of [ev].  The component
    registers each of its listeners under the matching event only. *)
Definition invoke (fn : Listener) (ev : TransportEvent) : Handler :=
  match fn, ev with
  | OnCallStart, _ => onCallStart
  | OnCallEnd, _ => onCallEnd
  | OnMessage, EvMessage m => onMessage m
  | OnSpeechStart, _ => onSpeechStart
  | OnSpeechEnd, _ => onSpeechEnd
  | OnError, EvError e => onError e
  | _, _ => skip
  end.

Fixpoint emit (reg : list Subscription) (ev : TransportEvent) : Handler :=
  match reg with
  | [] => skip
  | (n, fn) :: reg' =>
      if String.eqb n (event_name ev)
      then andThen (invoke fn ev) (emit reg' ev)
      else emit reg' ev
  end.

(** The six registrations of the first effect, in source order; its
    cleanup removes the same six, in the same order. *)
Definition subscriptions : list Subscription :=
  [("call-start", OnCallStart); ("call-end", OnCallEnd);
   ("message", OnMessage); ("speech-start", OnSpeechStart);
   ("speech-end", OnSpeechEnd); ("error", OnError)].

Definition subscribe (reg : list Subscription) : list Subscription :=
  fold_left (fun r s => on (fst s) (snd s) r) subscriptions reg.

Definition cleanup (reg : list Subscription) : list Subscription :=
  fold_left (fun r s => off (fst s) (snd s) r) subscriptions reg.

(** *** Rendering and the component's life *)

(** The second effect runs again after a render in which one of its
    dependencies changed.  Among [messages, callStatus, feedbackId,
    interviewId, router, type, userId] only the first two can change
    during the life of one instance. *)
Definition deps_changed (old new : State) : bool :=
  negb (Nat.eqb (messagesRef old) (messagesRef new))
  || negb (CallStatus_eqb (callStatus old) (callStatus new)).

(** [commit old r]: the render that follows the state updates [r] made
    to [old], and the run of the second effect if a dependency changed.
    The state it gives is the state once the [setLastMessage] of that
    effect has been rendered as well; the render that comes before the
    effect is [first_render], below. *)
Definition commit (old : State) (r : State * list Effect)
  : State * list Effect :=
  let (new, effs) := r in
  if deps_changed old new then
    let (new', effs') := completionEffect new in (new', effs ++ effs')
  else (new, effs).

Definition is_gateway_call (e : Effect) : bool :=
  match e with CreateFeedbackCall _ => true | _ => false end.

Definition gateway_calls (effs : list Effect) : nat :=
  length (List.filter is_gateway_call effs).

(** [inflight] counts the [createFeedback] promises not yet resolved;
    each of them resumes [handleGenerateFeedback] when it resolves. *)
Record World := {
  ctrl : State;
  mounted : bool;
  registry : list Subscription;
  inflight : nat
}.

Definition react (h : Handler) (w : World) : World * list Effect :=
  let (st, effs) := commit (ctrl w) (h (ctrl w)) in
  ({| ctrl := st; mounted := mounted w; registry := registry w;
      inflight := inflight w + gateway_calls effs |},
   effs).

(** First render: both effects run once. *)
Definition mount (reg : list Subscription) : World * list Effect :=
  let (st, effs) := completionEffect initial in
  ({| ctrl := st; mounted := true; registry := subscribe reg;
      inflight := gateway_calls effs |}, effs).

Definition unmount (w : World) : World :=
  {| ctrl := ctrl w; mounted := false; registry := cleanup (registry w);
     inflight := inflight w |}.

Inductive Event :=
| Click (b : Button)
| Transport (ev : TransportEvent)
| GatewayReturn (res : FeedbackResult)
| Unmount.

(** A click reaches a handler only if that button is on screen. *)
Definition enabled (w : World) (e : Event) : bool :=
  match e with
  | Click b => mounted w && Button_eqb (callButton (ctrl w)) b
  | Transport _ => true
  | GatewayReturn _ => negb (Nat.eqb (inflight w) 0)
  | Unmount => mounted w
  end.

Definition step (w : World) (e : Event) : World * list Effect :=
  if enabled w e then
    match e with
    | Click b => react (onClick b) w
    | Transport ev => react (emit (registry w) ev) w
    | GatewayReturn res =>
        ({| ctrl := ctrl w; mounted := mounted w; registry := registry w;
            inflight := pred (inflight w) |},
         handleGenerateFeedback_resume res)
    | Unmount => (unmount w, [])
    end
  else (w, []).

Fixpoint run (w : World) (es : list Event) : World * list Effect :=
  match es with
  | [] => (w, [])
  | e :: es' =>
      let (w1, effs1) := step w e in
      let (w2, effs2) := run w1 es' in
      (w2, effs1 ++ effs2)
  end.

(** *** The rendered interface *)

(** What the JSX shows: the speaking animation, the user's name, the
    transcript panel with its text, and the call button with its ping
    animation and its text.  In the start button the words [// Connecting]
    stand after the closing brace of the label expression, so they are
    text of the button, whatever the status. *)
Record View := {
  v_speaking : bool;
  v_userName : string;
  v_transcript : option string;
  v_button : Button;
  v_ping : bool;
  v_label : string
}.

Definition render (st : State) : View := {|
  v_speaking := isSpeaking st;
  v_userName := userName props;
  v_transcript :=
    if Nat.ltb 0 (length (messages st)) then Some (lastMessage st) else None;
  v_button := callButton st;
  v_ping :=
    negb (CallStatus_eqb (callStatus st) ACTIVE)
    && CallStatus_eqb (callStatus st) CONNECTING;
  v_label :=
    if negb (CallStatus_eqb (callStatus st) ACTIVE) then
      (if CallStatus_eqb (callStatus st) INACTIVE
          || CallStatus_eqb (callStatus st) FINISHED
       then "Call" else ". . .")
      +:+ " // Connecting"
    else "End"
|}.

(** *** Events rendered together *)

(** [step] is an event that React renders by itself: its handler runs,
    React renders, the second effect runs if a dependency changed.
    Transport events whose state updates React renders together (those the
    emitter delivers in one tick, and those of ticks that follow before
    React has rendered) share one render: their listeners run one after the
    other, then React renders once and the second effect runs at most once,
    comparing the dependencies with those of the render before.  A click is
    rendered by itself. *)
Fixpoint emit_all (reg : list Subscription) (evs : list TransportEvent)
  : Handler :=
  match evs with
  | [] => skip
  | ev :: evs' => andThen (emit reg ev) (emit_all reg evs')
  end.

Inductive Input :=
| Single (e : Event)
| Batch (evs : list TransportEvent).

Definition step_in (w : World) (i : Input) : World * list Effect :=
  match i with
  | Single e => step w e
  | Batch evs => react (emit_all (registry w) evs) w
  end.

Fixpoint run_in (w : World) (ins : list Input) : World * list Effect :=
  match ins with
  | [] => (w, [])
  | i :: ins' =>
      let (w1, effs1) := step_in w i in
      let (w2, effs2) := run_in w1 ins' in
      (w2, effs1 ++ effs2)
  end.

(** The state of the render that comes first after an input: the state
    updates of the handlers are in, the second effect has not run yet.
    [react] gives the state once that effect has run and its
    [setLastMessage] has been rendered. *)
Definition first_render (w : World) (i : Input) : State :=
  match i with
  | Single (Click b) =>
      if enabled w (Click b) then fst (onClick b (ctrl w)) else ctrl w
  | Single (Transport ev) => fst (emit (registry w) ev (ctrl w))
  | Single (GatewayReturn _) => ctrl w
  | Single Unmount => ctrl w
  | Batch evs => fst (emit_all (registry w) evs (ctrl w))
  end.

End Instance.

End Agent.

(** ** lib/actions/general.action.ts *)

Module GeneralAction.

Import Agent.

(** The object produced by the language model, as [feedbackSchema]
    describes it (scores as integers). *)
Record FeedbackObject := {
  totalScore : Z;
  categoryScores : list (string * Z * string);
  strengths : list string;
  areasForImprovement : list string;
  finalAssessment : string
}.

(** A document of the [feedback] collection. *)
Record Feedback := {
  f_interviewId : option string;
  f_userId : option string;
  f_totalScore : Z;
  f_categoryScores : list (string * Z * string);
  f_strengths : list string;
  f_areasForImprovement : list string;
  f_finalAssessment : string;
  f_createdAt : string
}.

(** What the outside world decides during one call: the answer of
    [generateObject] to the transcript it is sent ([None] when it throws),
    the identifier the store picks for [doc()], the clock, and whether
    [set] goes through. *)
Record Backend := {
  generateObject : string -> option FeedbackObject;
  autoId : string;
  now : string;
  set_ok : bool
}.

(** A document reference: the path of the collection that holds the
    document, and the document's name. *)
Record DocumentReference := { parent : list string; id : string }.

(** [String.prototype.split] on a slash. *)
Fixpoint split_slash (s : string) : list string :=
  match s with
  | EmptyString => [EmptyString]
  | String a s' =>
      if Ascii.eqb a "/"%char then EmptyString :: split_slash s'
      else match split_slash s' with
           | seg :: rest => String a seg :: rest
           | [] => [String a EmptyString]
           end
  end.

Fixpoint has_double_slash (s : string) : bool :=
  match s with
  | EmptyString => false
  | String a s' =>
      match s' with
      | String b _ =>
          (Ascii.eqb a "/"%char && Ascii.eqb b "/"%char) || has_double_slash s'
      | EmptyString => false
      end
  end.

(** [db.collection("feedback").doc(documentPath)] and [.doc()].  Without
    an argument the store generates the name.  With one, the path is put
    after the path of the collection: it is refused ([None], the call
    throws) when it is empty or has two slashes in a row; a slash in front
    or at the end is dropped; and what it then names has to be a document,
    which it is when the number of its segments is odd.  The name of the
    document is the last segment, the segments before it name a
    sub-collection. *)
Definition doc (documentPath : option string) (be : Backend)
  : option DocumentReference :=
  match documentPath with
  | None => Some {| parent := ["feedback"]; id := autoId be |}
  | Some path =>
      if String.eqb path "" || has_double_slash path then None
      else
        let segments :=
          List.filter (fun seg => negb (String.eqb seg ""))
                      (split_slash path) in
        if Nat.odd (length segments) then
          Some {| parent := "feedback" :: removelast segments;
                  id := List.last segments "" |}
        else None
  end.

Definition role_str (r : Role) : string :=
  match r with
  | user => "user"
  | system => "system"
  | assistant => "assistant"
  end.

Definition formattedTranscript (transcript : list SavedMessage) : string :=
  Js.join ""
    (map (fun sentence =>
            "- " +:+ role_str (role sentence) +:+ ": " +:+ content sentence
            +:+ Js.newline)
         transcript).

(** [createFeedback] as a function of the store: the result it resolves
    to and the documents of the [feedback] collection, by name, afterwards.
    A document written into a sub-collection is not one of them.  A throw
    anywhere in the [try] block ([generateObject], [doc] or [set]) lands in
    [catch], which resolves to [success: false]. *)
Definition createFeedback (be : Backend) (params : CreateFeedbackParams)
    (db : gmap string Feedback) : FeedbackResult * gmap string Feedback :=
  match generateObject be (formattedTranscript (p_transcript params)) with
  | None => ({| success := false; r_feedbackId := None |}, db)
  | Some object =>
      let feedback := {|
        f_interviewId := p_interviewId params;
        f_userId := p_userId params;
        f_totalScore := totalScore object;
        f_categoryScores := categoryScores object;
        f_strengths := strengths object;
        f_areasForImprovement := areasForImprovement object;
        f_finalAssessment := finalAssessment object;
        f_createdAt := now be
      |} in
      match (if Js.truthy (p_feedbackId params)
             then doc (p_feedbackId params) be
             else doc None be) with
      | None => ({| success := false; r_feedbackId := None |}, db)
      | Some feedbackRef =>
          if set_ok be then
            ({| success := true; r_feedbackId := Some (id feedbackRef) |},
             if decide (parent feedbackRef = ["feedback"])
             then <[id feedbackRef := feedback]> db
             else db)
          else ({| success := false; r_feedbackId := None |}, db)
      end
  end.

(** *** Reading the collections *)

(** A document of the [interviews] collection, with the fields
    [dummyInterviews] shows.  A stored document may have an [id] field of
    its own. *)
Record InterviewData := {
  d_id : option string;
  d_userId : string;
  d_role : string;
  d_type : string;
  d_techstack : list string;
  d_level : string;
  d_questions : list string;
  d_finalized : bool;
  d_createdAt : string
}.

Record Interview := { iv_id : string; iv_data : InterviewData }.

(** [{ id: doc.id, ...doc.data() }]: the fields of the document are spread
    after [id], so an [id] field of the document wins. *)
Definition with_id (doc : string * InterviewData) : Interview :=
  {| iv_id := default doc.1 (d_id doc.2); iv_data := doc.2 |}.

(** The order in which the store lists the documents that match a query
    is the store's own; for each collection it is an input. *)
Record Engine := {
  feedback_docs : list (string * Feedback) -> list (string * Feedback);
  interview_docs :
    list (string * InterviewData) -> list (string * InterviewData)
}.

(** [orderBy("createdAt", "desc")]: strings compare by their bytes. *)
Definition createdAt_desc (a b : string * InterviewData) : Prop :=
  String.le (d_createdAt b.2) (d_createdAt a.2).

Definition orderBy_createdAt_desc (docs : list (string * InterviewData))
  : list (string * InterviewData) :=
  merge_sort createdAt_desc docs.

(** [getInterviewById]: the data of the document named [id], if there is
    one; the name is not added to it. *)
Definition getInterviewById (id : string) (db : gmap string InterviewData)
  : option InterviewData :=
  db !! id.

(** [getFeedbackByInterviewId]: the first document, if any, with both
    fields equal to the arguments, returned with its name as [id]. *)
Definition getFeedbackByInterviewId (eng : Engine)
    (interviewId userId : option string) (db : gmap string Feedback)
  : option (string * Feedback) :=
  if negb (Js.truthy interviewId) || negb (Js.truthy userId) then None
  else
    let docs :=
      take 1
        (feedback_docs eng
           (filter (fun d => f_interviewId d.2 = interviewId
                             /\ f_userId d.2 = userId)
                   (map_to_list db))) in
    match docs with
    | [] => None
    | feedbackDoc :: _ => Some feedbackDoc
    end.

(** [getLatestInterviews]: finalized interviews of other users, most
    recent first, [limit] at most ([limit = 20] when it is not given). *)
Definition getLatestInterviews (eng : Engine) (userId : option string)
    (limit : option nat) (db : gmap string InterviewData) : list Interview :=
  let limit := default 20 limit in
  if negb (Js.truthy userId) then []
  else
    let docs :=
      take limit
        (orderBy_createdAt_desc
           (interview_docs eng
              (filter (fun d => d_finalized d.2 = true
                                /\ Some (d_userId d.2) <> userId)
                      (map_to_list db)))) in
    with_id <$> docs.

(** [getInterviewsByUserId]: the interviews of one user, most recent
    first. *)
Definition getInterviewsByUserId (eng : Engine) (userId : option string)
    (db : gmap string InterviewData) : list Interview :=
  if negb (Js.truthy userId) then []
  else
    let docs :=
      orderBy_createdAt_desc
        (interview_docs eng
           (filter (fun d => Some (d_userId d.2) = userId) (map_to_list db))) in
    with_id <$> docs.

End GeneralAction.

(** * Vocabulary of the properties *)

Import Agent.

Definition is_foreign (s : Subscription) : bool :=
  match snd s with Foreign _ => true | _ => false end.

(** A registry in which this component has no listener. *)
Definition foreign_only (reg : list Subscription) : bool :=
  forallb is_foreign reg.

(** The listener the component has for each transport event. *)
Definition on_event (ev : TransportEvent) : Handler :=
  match ev with
  | EvCallStart => onCallStart
  | EvCallEnd => onCallEnd
  | EvMessage m => onMessage m
  | EvSpeechStart => onSpeechStart
  | EvSpeechEnd => onSpeechEnd
  | EvError e => onError e
  end.

(** The life of one instance: mounted on a registry, then driven by a
    sequence of clicks, transport events, gateway answers and possibly its
    unmounting.  The result is the world reached and everything done on the
    way. *)
Definition session (props : AgentProps) (wf : option string)
    (reg0 : list Subscription) (es : list Event) : World * list Effect :=
  let (w0, effs0) := mount props reg0 in
  let (w, effs) := run props wf w0 es in
  (w, effs0 ++ effs).

(** Mounted with its six listeners registered once, or unmounted with none
    of them left. *)
Definition Live (w : World) : Prop :=
  mounted w = true /\
  exists reg0, foreign_only reg0 = true /\ registry w = subscribe reg0.

Definition Dead (w : World) : Prop :=
  mounted w = false /\ foreign_only (registry w) = true.

Definition Wired (w : World) : Prop := Live w \/ Dead w.

(** Position of a status on the line Idle, Connecting, Active, Finished. *)
Definition rank (s : CallStatus) : nat :=
  match s with
  | INACTIVE => 0
  | CONNECTING => 1
  | ACTIVE => 2
  | FINISHED => 3
  end.

(** The status an event leaves behind in a live component. *)
Definition next_status (s : CallStatus) (e : Event) : CallStatus :=
  match e with
  | Click BtnCall => match s with ACTIVE => s | _ => CONNECTING end
  | Click BtnDisconnect => match s with ACTIVE => FINISHED | _ => s end
  | Transport EvCallStart => ACTIVE
  | Transport EvCallEnd => FINISHED
  | _ => s
  end.

(** The utterances a sequence of events carries: one per final transcript
    message, in order of arrival. *)
Definition utterance (m : Message) : SavedMessage :=
  {| role := m_role m; content := m_transcript m |}.

Fixpoint utterances (es : list Event) : list SavedMessage :=
  match es with
  | [] => []
  | Transport (EvMessage m) :: es' =>
      if is_final_transcript m then utterance m :: utterances es'
      else utterances es'
  | _ :: es' => utterances es'
  end.

Definition is_unmount (e : Event) : bool :=
  match e with Unmount => true | _ => false end.

(** The [questions] entry as the start contract words it: every question
    prefixed with a dash and a space, the lines separated by newlines. *)
Definition questions_entry (qs : option (list string)) : string :=
  match qs with
  | Some l => String.concat Js.newline (map (String.append "- ") l)
  | None => ""
  end.



(** Transport events that may still arrive once the call is over; a
    call-start would begin another call. *)
Definition late_event (e : Event) : bool :=
  match e with
  | Transport EvCallStart => false
  | Transport _ => true
  | _ => false
  end.

(** What the second effect does when it runs with the status FINISHED. *)
Definition finish_effects (props : AgentProps) (msgs : list SavedMessage)
  : list Effect :=
  if is_generate props then [RouterPush "/"]
  else handleGenerateFeedback props msgs.

(** Effects that are neither a gateway invocation nor a navigation to
    anything but home. *)
Definition home_only (e : Effect) : bool :=
  match e with
  | CreateFeedbackCall _ => false
  | RouterPush path => String.eqb path "/"
  | _ => true
  end.

Definition feedback_view (props : AgentProps) : string :=
  "/interview/" +:+ Js.to_str (interviewId props) +:+ "/feedback".

(** A gateway answer that carries an identifier. *)
Definition has_identifier (res : FeedbackResult) : Prop :=
  exists s, r_feedbackId res = Some s /\ s <> "".

(** ** Further vocabulary *)

(** The request [handleCall] sends to the transport, by mode. *)
Definition start_effect (props : AgentProps) (wf : option string) : Effect :=
  if is_generate props then
    VapiStart (Workflow wf)
      [("username", Some (userName props)); ("userid", userId props)]
  else
    VapiStart (Assistant interviewer)
      [("questions", Some (questions_entry (questions props)))].

(** The things an instance may do to the outside world. *)
Definition allowed (props : AgentProps) (wf : option string) (e : Effect)
  : Prop :=
  match e with
  | ConsoleLog _ => True
  | VapiStart _ _ => e = start_effect props wf
  | VapiStop => True
  | RouterPush path => path = "/" \/ path = feedback_view props
  | CreateFeedbackCall params =>
      p_interviewId params = interviewId props /\
      p_userId params = userId props /\
      p_feedbackId params = feedbackId props
  end.

Definition is_log (e : Effect) : bool :=
  match e with ConsoleLog _ => true | _ => false end.

Definition is_push (e : Effect) : bool :=
  match e with RouterPush _ => true | _ => false end.

(** How many navigations a log holds. *)
Definition pushes (effs : list Effect) : nat :=
  length (List.filter is_push effs).

(** Requests to the transport. *)
Definition is_command (e : Effect) : bool :=
  match e with VapiStart _ _ | VapiStop => true | _ => false end.

(** The request a step is to send, by the button that is on screen. *)
Definition expected_commands (props : AgentProps) (wf : option string)
    (w : World) (e : Event) : list Effect :=
  match e with
  | Click BtnCall =>
      if mounted w && negb (CallStatus_eqb (callStatus (ctrl w)) ACTIVE)
      then [start_effect props wf] else []
  | Click BtnDisconnect =>
      if mounted w && CallStatus_eqb (callStatus (ctrl w)) ACTIVE
      then [VapiStop] else []
  | _ => []
  end.

(** The events an instance receives before it is unmounted. *)
Fixpoint before_unmount (es : list Event) : list Event :=
  match es with
  | [] => []
  | Unmount :: _ => []
  | e :: es' => e :: before_unmount es'
  end.

(** The text on the transcript panel agrees with the transcript. *)
Definition panel_in_step (st : State) : Prop :=
  lastMessage st =
  match last (messages st) with Some m => content m | None => "" end.

(** A store that lists every matching document once, in some order. *)
Definition Engine_ok (eng : GeneralAction.Engine) : Prop :=
  (forall l, GeneralAction.feedback_docs eng l ≡ₚ l) /\
  (forall l, GeneralAction.interview_docs eng l ≡ₚ l).

(** Most recent first, on results. *)
Definition newer_first (a b : GeneralAction.Interview) : Prop :=
  String.le (GeneralAction.d_createdAt (GeneralAction.iv_data b))
            (GeneralAction.d_createdAt (GeneralAction.iv_data a)).

(** A feedback identifier that is a document name: not empty, no slash. *)
Fixpoint has_slash (s : string) : bool :=
  match s with
  | EmptyString => false
  | String a s' => Ascii.eqb a "/"%char || has_slash s'
  end.

Definition plain_name (s : string) : bool :=
  negb (String.eqb s "") && negb (has_slash s).

(** A feedback identifier that is left out (missing or empty) or is a
    document name. *)
Definition absent_or_plain (v : option string) : bool :=
  match v with
  | Some s => String.eqb s "" || negb (has_slash s)
  | None => true
  end.

(** The document a call writes, from the answer of the model. *)
Definition feedback_of (be : GeneralAction.Backend)
    (params : CreateFeedbackParams) (object : GeneralAction.FeedbackObject)
  : GeneralAction.Feedback := {|
  GeneralAction.f_interviewId := p_interviewId params;
  GeneralAction.f_userId := p_userId params;
  GeneralAction.f_totalScore := GeneralAction.totalScore object;
  GeneralAction.f_categoryScores := GeneralAction.categoryScores object;
  GeneralAction.f_strengths := GeneralAction.strengths object;
  GeneralAction.f_areasForImprovement :=
    GeneralAction.areasForImprovement object;
  GeneralAction.f_finalAssessment := GeneralAction.finalAssessment object;
  GeneralAction.f_createdAt := GeneralAction.now be
|}.

(** A session in which transport events may share renders. *)
Definition session_in (props : AgentProps) (wf : option string)
    (reg0 : list Subscription) (ins : list Input) : World * list Effect :=
  let (w0, effs0) := mount props reg0 in
  let (w, effs) := run_in props wf w0 ins in
  (w, effs0 ++ effs).




(** ** Sample instances and messages *)

Definition review_props : AgentProps := {|
  userName := "Ada";
  userId := Some "u1";
  interviewId := Some "i1";
  feedbackId := None;
  type := "interview";
  questions := Some ["Tell me about yourself"; "Why this role?"]
|}.

Definition generate_props : AgentProps := {|
  userName := "Ada";
  userId := Some "u1";
  interviewId := None;
  feedbackId := None;
  type := "generate";
  questions := None
|}.

Definition transcript_msg (kind : string) (r : Role) (text : string) : Message :=
  {| m_type := "transcript"; m_role := r; m_transcript := text;
     m_transcriptType := kind |}.

(** A backend on which everything succeeds, and a call that names the
    feedback document to write. *)
Definition sample_backend : GeneralAction.Backend := {|
  GeneralAction.generateObject := fun _ =>
    Some {| GeneralAction.totalScore := 70;
            GeneralAction.categoryScores :=
              [("Communication Skills", 70%Z, "Clear answers")];
            GeneralAction.strengths := ["Structure"];
            GeneralAction.areasForImprovement := ["Depth"];
            GeneralAction.finalAssessment := "Solid" |};
  GeneralAction.autoId := "auto1";
  GeneralAction.now := "2024-03-15T10:00:00Z";
  GeneralAction.set_ok := true
|}.

Definition sample_params : CreateFeedbackParams := {|
  p_interviewId := Some "i1";
  p_userId := Some "u1";
  p_transcript := [{| role := user; content := "Hi" |}];
  p_feedbackId := Some "fb1"
|}.

(** A call whose feedback identifier is a path of three segments. *)
Definition sample_params_nested : CreateFeedbackParams := {|
  p_interviewId := Some "i1";
  p_userId := Some "u1";
  p_transcript := [{| role := user; content := "Hi" |}];
  p_feedbackId := Some "a/b/c"
|}.

(** A call for a first feedback: no feedback document is named. *)
Definition sample_params_new : CreateFeedbackParams := {|
  p_interviewId := Some "i1";
  p_userId := Some "u1";
  p_transcript := [{| role := user; content := "Hi" |}];
  p_feedbackId := None
|}.

(** A store that lists documents in the order it is handed them. *)
Definition sample_engine : GeneralAction.Engine := {|
  GeneralAction.feedback_docs := fun l => l;
  GeneralAction.interview_docs := fun l => l
|}.

(** An [interviews] collection: the two interviews of [dummyInterviews],
    finalized here, and one of another user. *)
Definition sample_interview (owner role created : string) (finalized : bool)
  : GeneralAction.InterviewData := {|
  GeneralAction.d_id := None;
  GeneralAction.d_userId := owner;
  GeneralAction.d_role := role;
  GeneralAction.d_type := "Technical";
  GeneralAction.d_techstack := ["React"; "TypeScript"];
  GeneralAction.d_level := "Junior";
  GeneralAction.d_questions := ["What is React?"];
  GeneralAction.d_finalized := finalized;
  GeneralAction.d_createdAt := created
|}.

Definition sample_interviews : gmap string GeneralAction.InterviewData :=
  <["1" := sample_interview "user1" "Frontend Developer"
             "2024-03-15T10:00:00Z" true]>
  (<["2" := sample_interview "user1" "Full Stack Developer"
              "2024-03-14T15:30:00Z" true]>
   (<["3" := sample_interview "user2" "Backend Developer"
               "2024-03-16T09:00:00Z" true]> ∅)).

Definition sample_first_interview : GeneralAction.Interview :=
  GeneralAction.with_id
    ("1", sample_interview "user1" "Frontend Developer"
            "2024-03-15T10:00:00Z" true).

(** A freshly mounted component on an empty registry. *)
Definition fresh (props : AgentProps) : World := fst (mount props []).

(** * Properties *)

(** ** Strings and [join] *)

Lemma append_cons (c : ascii) (s t : string) :
  String c s +:+ t = String c (s +:+ t).
Proof. reflexivity. Qed.

Lemma append_nil_r (s : string) : s +:+ "" = s.
Proof.
  induction s as [|c s IH]; [reflexivity|].
  now rewrite append_cons, IH.
Qed.

Lemma append_assoc (a b c : string) : (a +:+ b) +:+ c = a +:+ (b +:+ c).
Proof.
  induction a as [|x a IH]; [reflexivity|].
  now rewrite !append_cons, IH.
Qed.

(** Once the first element has been appended, [join_from] adds the
    separator before every remaining element. *)
Lemma join_from_later (sep : string) (l : list string) :
  forall k R,
    Js.join_from sep (S k) R l =
    R +:+ match l with [] => "" | _ :: _ => sep +:+ String.concat sep l end.
Proof.
  induction l as [|x l IH]; intros k R.
  - simpl. now rewrite append_nil_r.
  - cbn [Js.join_from]. rewrite IH. destruct l as [|y l].
    + cbn [String.concat]. now rewrite append_nil_r, append_assoc.
    + change (String.concat sep (x :: y :: l))
        with (x +:+ sep +:+ String.concat sep (y :: l)).
      now rewrite !append_assoc.
Qed.

Lemma join_concat (sep : string) (l : list string) :
  Js.join sep l = String.concat sep l.
Proof.
  unfold Js.join. destruct l as [|x l]; [reflexivity|].
  cbn [Js.join_from]. rewrite join_from_later.
  destruct l as [|y l]; [now rewrite append_nil_r | reflexivity].
Qed.

(** ** The emitter *)

Lemma andThen_skip_l (h : Handler) st : andThen skip h st = h st.
Proof. unfold andThen, skip. now destruct (h st). Qed.

Lemma andThen_skip_r (h : Handler) st : andThen h skip st = h st.
Proof.
  unfold andThen, skip. destruct (h st) as [st1 e1].
  now rewrite app_nil_r.
Qed.

Lemma emit_app reg1 reg2 ev st :
  emit (reg1 ++ reg2) ev st = andThen (emit reg1 ev) (emit reg2 ev) st.
Proof.
  revert st. induction reg1 as [|[n fn] reg1 IH]; intros st.
  - simpl. now rewrite andThen_skip_l.
  - simpl. destruct (String.eqb n (event_name ev)); [|apply IH].
    unfold andThen. destruct (invoke fn ev st) as [st1 e1].
    rewrite IH. unfold andThen.
    destruct (emit reg1 ev st1) as [st2 e2].
    destruct (emit reg2 ev st2) as [st3 e3].
    now rewrite app_assoc.
Qed.

Lemma emit_foreign reg ev st :
  foreign_only reg = true -> emit reg ev st = (st, []).
Proof.
  induction reg as [|[n fn] reg IH]; intros Hf; [reflexivity|].
  simpl in Hf. apply andb_true_iff in Hf as [Hfn Hreg].
  simpl. destruct (String.eqb n (event_name ev)); [|now apply IH].
  destruct fn; try discriminate Hfn.
  rewrite andThen_skip_l. now apply IH.
Qed.

Lemma emit_subscriptions ev st : emit subscriptions ev st = on_event ev st.
Proof.
  destruct ev; cbn [emit subscriptions event_name String.eqb Ascii.eqb
                      Bool.eqb invoke on_event];
    apply andThen_skip_r.
Qed.

Lemma subscribe_app reg : subscribe reg = reg ++ subscriptions.
Proof.
  unfold subscribe, on. simpl. now rewrite <- !app_assoc.
Qed.

Lemma emit_subscribe reg ev st :
  foreign_only reg = true -> emit (subscribe reg) ev st = on_event ev st.
Proof.
  intros Hf. rewrite subscribe_app, emit_app. unfold andThen.
  rewrite (emit_foreign _ _ _ Hf), emit_subscriptions.
  now destruct (on_event ev st).
Qed.

Lemma remove_first_app_l s l1 l2 :
  existsb (Subscription_eqb s) l1 = true ->
  remove_first s (l1 ++ l2) = remove_first s l1 ++ l2.
Proof.
  induction l1 as [|x l1 IH]; [discriminate|].
  simpl. destruct (Subscription_eqb s x); [reflexivity|].
  simpl. intros H. now rewrite IH.
Qed.

(** [off] reaches the registration made last: what was registered before
    stays in place. *)
Lemma off_app event fn reg l :
  existsb (Subscription_eqb (event, fn)) (rev l) = true ->
  off event fn (reg ++ l) = reg ++ off event fn l.
Proof.
  intros H. unfold off. rewrite rev_app_distr, remove_first_app_l by exact H.
  now rewrite rev_app_distr, rev_involutive.
Qed.

Lemma cleanup_subscribe reg : cleanup (subscribe reg) = reg.
Proof.
  rewrite subscribe_app. unfold cleanup, subscriptions.
  cbn [fold_left fst snd].
  repeat (rewrite off_app by reflexivity;
          match goal with
          | |- context [reg ++ off ?e ?f ?l] =>
              let r := eval vm_compute in (off e f l) in
              change (off e f l) with r
          end).
  apply app_nil_r.
Qed.

(** ** Rendering leaves all but [lastMessage] alone *)

Lemma completionEffect_state p st :
  fst (completionEffect p st) =
  match last (messages st) with
  | Some m => setLastMessage (content m) st
  | None => st
  end.
Proof.
  unfold completionEffect.
  destruct (CallStatus_eqb (callStatus st) FINISHED); [|reflexivity].
  now destruct (is_generate p).
Qed.

Lemma completionEffect_frame p st :
  let st' := fst (completionEffect p st) in
  callStatus st' = callStatus st /\ messages st' = messages st /\
  messagesRef st' = messagesRef st /\ isSpeaking st' = isSpeaking st.
Proof.
  cbv zeta. rewrite completionEffect_state.
  now destruct (last (messages st)).
Qed.

Lemma commit_frame p old r :
  let st' := fst (commit p old r) in
  callStatus st' = callStatus (fst r) /\ messages st' = messages (fst r) /\
  messagesRef st' = messagesRef (fst r) /\ isSpeaking st' = isSpeaking (fst r).
Proof.
  destruct r as [new effs]. unfold commit.
  destruct (deps_changed old new); [|now cbn].
  pose proof (completionEffect_frame p new) as H.
  destruct (completionEffect p new) as [new' effs']. exact H.
Qed.

Lemma react_ctrl p h w :
  ctrl (fst (react p h w)) = fst (commit p (ctrl w) (h (ctrl w))).
Proof.
  unfold react. now destruct (commit p (ctrl w) (h (ctrl w))).
Qed.

Lemma react_effects p h w :
  snd (react p h w) = snd (commit p (ctrl w) (h (ctrl w))).
Proof.
  unfold react. now destruct (commit p (ctrl w) (h (ctrl w))).
Qed.

Lemma react_wiring p h w :
  mounted (fst (react p h w)) = mounted w /\
  registry (fst (react p h w)) = registry w.
Proof.
  unfold react. now destruct (commit p (ctrl w) (h (ctrl w))).
Qed.

Lemma react_ext p h1 h2 w :
  h1 (ctrl w) = h2 (ctrl w) -> react p h1 w = react p h2 w.
Proof. unfold react. now intros ->. Qed.

(** ** What a step is, by the state of the wiring *)

Lemma step_transport_live p wf w ev :
  Live w -> step p wf w (Transport ev) = react p (on_event ev) w.
Proof.
  intros [_ (reg0 & Hf & Hreg)]. unfold step. cbn [enabled].
  apply react_ext. rewrite Hreg. now apply emit_subscribe.
Qed.

Lemma step_transport_dead p wf w ev :
  Dead w -> step p wf w (Transport ev) = react p skip w.
Proof.
  intros [_ Hf]. unfold step. cbn [enabled].
  apply react_ext. now apply emit_foreign.
Qed.

Lemma deps_changed_refl st : deps_changed st st = false.
Proof.
  unfold deps_changed. rewrite Nat.eqb_refl.
  now destruct (callStatus st).
Qed.

Lemma react_skip p w : react p skip w = (w, []).
Proof.
  unfold react, skip, commit. rewrite deps_changed_refl.
  unfold gateway_calls. cbn. rewrite Nat.add_0_r. now destruct w.
Qed.

Lemma step_click_dead p wf w b : Dead w -> step p wf w (Click b) = (w, []).
Proof. intros [Hm _]. unfold step. cbn [enabled]. now rewrite Hm. Qed.

Lemma step_wired p wf w e : Wired w -> Wired (fst (step p wf w e)).
Proof.
  intros Hw. unfold step. destruct (enabled w e) eqn:He; [|exact Hw].
  destruct e as [b|ev|res|].
  - destruct (react_wiring p (onClick p wf b) w) as [Hm Hr].
    unfold Wired, Live, Dead in *. now rewrite Hm, Hr.
  - destruct (react_wiring p (emit (registry w) ev) w) as [Hm Hr].
    unfold Wired, Live, Dead in *. now rewrite Hm, Hr.
  - exact Hw.
  - cbn [enabled] in He. destruct Hw as [[_ (reg0 & Hf & Hreg)]|[Hm _]].
    + right. split; [reflexivity|].
      change (foreign_only (cleanup (registry w)) = true).
      now rewrite Hreg, cleanup_subscribe.
    + congruence.
Qed.

Lemma run_cons p wf w e es :
  run p wf w (e :: es) =
  (fst (run p wf (fst (step p wf w e)) es),
   snd (step p wf w e) ++ snd (run p wf (fst (step p wf w e)) es)).
Proof.
  cbn [run]. destruct (step p wf w e) as [w1 effs1]. cbn [fst snd].
  now destruct (run p wf w1 es).
Qed.

Lemma run_app p wf w es1 es2 :
  run p wf w (es1 ++ es2) =
  (fst (run p wf (fst (run p wf w es1)) es2),
   snd (run p wf w es1) ++ snd (run p wf (fst (run p wf w es1)) es2)).
Proof.
  revert w. induction es1 as [|e es1 IH]; intros w.
  - cbn. now destruct (run p wf w es2).
  - rewrite <- app_comm_cons, !run_cons, IH. cbn [fst snd].
    now rewrite app_assoc.
Qed.

Lemma run_wired p wf es : forall w, Wired w -> Wired (fst (run p wf w es)).
Proof.
  induction es as [|e es IH]; intros w Hw; [exact Hw|].
  rewrite run_cons. cbn [fst]. apply IH. now apply step_wired.
Qed.

Lemma mount_world p reg0 :
  mount p reg0 =
  ({| ctrl := initial; mounted := true; registry := subscribe reg0;
      inflight := 0 |}, []).
Proof. reflexivity. Qed.

Lemma mount_live p reg0 :
  foreign_only reg0 = true -> Live (fst (mount p reg0)).
Proof. intros Hf. split; [reflexivity|]. now exists reg0. Qed.

Lemma session_run p wf reg0 es :
  session p wf reg0 es = run p wf (fst (mount p reg0)) es.
Proof.
  unfold session. rewrite mount_world. cbn [fst].
  now destruct (run p wf _ es).
Qed.

Lemma session_wired p wf reg0 es :
  foreign_only reg0 = true -> Wired (fst (session p wf reg0 es)).
Proof.
  intros Hf. rewrite session_run. apply run_wired. left. now apply mount_live.
Qed.

Lemma step_live p wf w e :
  Live w -> is_unmount e = false -> Live (fst (step p wf w e)).
Proof.
  intros Hw Hu. unfold step. destruct (enabled w e); [|exact Hw].
  destruct e as [b|ev|res|]; try discriminate Hu.
  - destruct (react_wiring p (onClick p wf b) w) as [Hm Hr].
    unfold Live in *. now rewrite Hm, Hr.
  - destruct (react_wiring p (emit (registry w) ev) w) as [Hm Hr].
    unfold Live in *. now rewrite Hm, Hr.
  - exact Hw.
Qed.

(** ** The transcript *)

Lemma on_event_messages ev st :
  messages (fst (on_event ev st)) = messages st ++ utterances [Transport ev].
Proof.
  destruct ev as [| |m| | |e]; cbn [on_event utterances];
    try (cbn; now rewrite app_nil_r).
  unfold onMessage. destruct (is_final_transcript m); cbn.
  - reflexivity.
  - now rewrite app_nil_r.
Qed.

Lemma onClick_messages p wf b st :
  messages (fst (onClick p wf b st)) = messages st.
Proof.
  destruct b; cbn [onClick]; [|reflexivity].
  unfold handleCall. now destruct (is_generate p).
Qed.

Lemma step_messages p wf w e :
  Live w -> is_unmount e = false ->
  messages (ctrl (fst (step p wf w e))) = messages (ctrl w) ++ utterances [e].
Proof.
  intros Hw Hu. destruct e as [b|ev|res|]; try discriminate Hu.
  - cbn [utterances]. rewrite app_nil_r. unfold step.
    destruct (enabled w (Click b)); [|reflexivity].
    rewrite react_ctrl.
    destruct (commit_frame p (ctrl w) (onClick p wf b (ctrl w))) as (_ & -> & _).
    apply onClick_messages.
  - rewrite step_transport_live by exact Hw. rewrite react_ctrl.
    destruct (commit_frame p (ctrl w) (on_event ev (ctrl w))) as (_ & -> & _).
    apply on_event_messages.
  - cbn [utterances]. rewrite app_nil_r. unfold step.
    now destruct (enabled w (GatewayReturn res)).
Qed.

Lemma utterances_cons e es : utterances (e :: es) = utterances [e] ++ utterances es.
Proof.
  destruct e as [b|[| |m| | |x]|res|]; cbn [utterances]; try reflexivity.
  now destruct (is_final_transcript m).
Qed.

(** Whatever else happens in between, the transcript grows by the final
    transcripts received, in order. *)
Lemma run_messages p wf es : forall w,
  Live w -> forallb (fun e => negb (is_unmount e)) es = true ->
  messages (ctrl (fst (run p wf w es))) = messages (ctrl w) ++ utterances es.
Proof.
  induction es as [|e es IH]; intros w Hw Hes.
  - cbn. now rewrite app_nil_r.
  - cbn [forallb] in Hes. apply andb_true_iff in Hes as [He Hes].
    apply negb_true_iff in He.
    rewrite run_cons. cbn [fst].
    rewrite IH by (try apply step_live; assumption).
    rewrite step_messages by assumption.
    now rewrite (utterances_cons e es), app_assoc.
Qed.

Lemma utterances_messages (ms : list Message) :
  utterances (map (fun m => Transport (EvMessage m)) ms) =
  map utterance (List.filter is_final_transcript ms).
Proof.
  induction ms as [|m ms IH]; [reflexivity|].
  cbn [map utterances List.filter].
  destruct (is_final_transcript m); cbn [map]; now rewrite IH.
Qed.

(** C3.  In a mounted component, after any sequence of transport message
    events the transcript is the transcript before followed by one
    utterance per event whose type is [transcript] and whose transcriptType
    is [final], in arrival order, each with the role and the text of its
    event; the other events add nothing. *)
Theorem transcript_appends_final_messages p wf w (ms : list Message) :
  Live w ->
  messages (ctrl (fst (run p wf w (map (fun m => Transport (EvMessage m)) ms))))
  = messages (ctrl w) ++ map utterance (List.filter is_final_transcript ms).
Proof.
  intros Hw. rewrite run_messages.
  - now rewrite utterances_messages.
  - exact Hw.
  - induction ms as [|m ms IH]; [reflexivity | exact IH].
Qed.

Lemma transcript_appends_final_messages_witness :
  Live (fresh review_props) /\
  messages (ctrl (fst (run review_props None (fresh review_props)
    (map (fun m => Transport (EvMessage m))
       [transcript_msg "final" user "Hi";
        transcript_msg "partial" assistant "Hel";
        transcript_msg "final" assistant "Hello"]))))
  = [{| role := user; content := "Hi" |};
     {| role := assistant; content := "Hello" |}].
Proof.
  split.
  - split; [reflexivity|]. exists []. split; reflexivity.
  - apply (transcript_appends_final_messages review_props None
             (fresh review_props)).
    split; [reflexivity|]. exists []. split; reflexivity.
Defined.

(** ** Starting a call *)

Lemma formattedQuestions_entry p :
  formattedQuestions p = questions_entry (questions p).
Proof.
  unfold formattedQuestions, questions_entry.
  destruct (questions p) as [qs|]; [|reflexivity].
  now rewrite join_concat.
Qed.

(** C7.  In an interview (review) session [handleCall] opens the transport
    with the [interviewer] assistant and a variable set whose only entry,
    [questions], is every supplied question prefixed with a dash and a
    space, the lines joined by newlines; that entry is the empty string
    when the questions are absent and when the list is empty. *)
Theorem review_start_opens_interviewer_with_questions p wf st :
  is_generate p = false ->
  handleCall p wf st =
    (setCallStatus CONNECTING st,
     [VapiStart (Assistant interviewer)
        [("questions", Some (questions_entry (questions p)))]])
  /\ questions_entry None = ""
  /\ questions_entry (Some []) = "".
Proof.
  intros Hmode. split; [|split; reflexivity].
  unfold handleCall. rewrite Hmode. now rewrite formattedQuestions_entry.
Qed.

Lemma review_start_opens_interviewer_with_questions_witness :
  is_generate review_props = false /\
  handleCall review_props None initial =
    (setCallStatus CONNECTING initial,
     [VapiStart (Assistant interviewer)
        [("questions",
          Some ("- Tell me about yourself" +:+ Js.newline +:+ "- Why this role?"))]]).
Proof.
  split; [reflexivity|].
  exact (proj1 (review_start_opens_interviewer_with_questions
                  review_props None initial eq_refl)).
Defined.

(** C2, as the code has it.  A click on the start button while the call is
    finished is accepted: the status goes back to CONNECTING and a second
    transport session is opened. *)
Lemma start_while_finished_counterexample :
  let w := fst (session review_props None []
                  [Click BtnCall; Transport EvCallStart; Click BtnDisconnect]) in
  callStatus (ctrl w) = FINISHED /\
  enabled w (Click BtnCall) = true /\
  callStatus (ctrl (fst (step review_props None w (Click BtnCall)))) = CONNECTING /\
  gateway_calls (snd (step review_props None w (Click BtnCall))) = 0 /\
  snd (step review_props None w (Click BtnCall)) =
    [VapiStart (Assistant interviewer)
       [("questions",
         Some ("- Tell me about yourself" +:+ Js.newline +:+ "- Why this role?"))]].
Proof. vm_compute. repeat split; reflexivity. Qed.

(** C2, amended.  [handleCall] has no status check: in every state it sets
    the status to CONNECTING, opens exactly one transport session and
    leaves the transcript, the speaking flag and the last message alone.
    The start button that calls it is on screen exactly when the status is
    not ACTIVE. *)
Theorem handleCall_unguarded p wf st :
  fst (handleCall p wf st) = setCallStatus CONNECTING st /\
  (exists target variables,
      snd (handleCall p wf st) = [VapiStart target variables]) /\
  (callButton st = BtnCall <-> callStatus st <> ACTIVE).
Proof.
  split; [|split].
  - unfold handleCall. now destruct (is_generate p).
  - unfold handleCall. destruct (is_generate p); cbn [snd]; eauto.
  - unfold callButton. destruct (callStatus st); cbn; split; congruence.
Qed.

(** ** The speaking indicator *)

Lemma deps_changed_setIsSpeaking b st :
  deps_changed st (setIsSpeaking b st) = false.
Proof.
  unfold deps_changed. cbn [setIsSpeaking messagesRef callStatus].
  rewrite Nat.eqb_refl. now destruct (callStatus st).
Qed.

(** C9.  In a mounted component a speech-start (speech-end) event sets
    [isSpeaking] to true (false) and changes nothing else: status,
    transcript and last message stay as they are, the second effect does
    not run, and the only thing done is a console line. *)
Theorem speech_events_only_toggle_isSpeaking p wf w (b : bool) :
  Live w ->
  let ev := if b then EvSpeechStart else EvSpeechEnd in
  let w' := fst (step p wf w (Transport ev)) in
  ctrl w' = setIsSpeaking b (ctrl w) /\
  isSpeaking (ctrl w') = b /\
  callStatus (ctrl w') = callStatus (ctrl w) /\
  messages (ctrl w') = messages (ctrl w) /\
  lastMessage (ctrl w') = lastMessage (ctrl w) /\
  mounted w' = mounted w /\ registry w' = registry w /\
  inflight w' = inflight w /\
  snd (step p wf w (Transport ev)) =
    [ConsoleLog [if b then "speech start" else "speech end"]].
Proof.
  intros Hw ev w'. subst w'. rewrite step_transport_live by exact Hw.
  assert (Hstep : react p (on_event ev) w =
            ({| ctrl := setIsSpeaking b (ctrl w); mounted := mounted w;
                registry := registry w; inflight := inflight w |},
             [ConsoleLog [if b then "speech start" else "speech end"]])).
  { unfold react, commit. subst ev.
    destruct b; cbn [on_event onSpeechStart onSpeechEnd];
      rewrite deps_changed_setIsSpeaking; unfold gateway_calls; cbn;
      now rewrite Nat.add_0_r. }
  rewrite Hstep. cbn. repeat split; reflexivity.
Qed.

Lemma speech_events_only_toggle_isSpeaking_witness :
  Live (fresh review_props) /\
  ctrl (fst (step review_props None (fresh review_props)
               (Transport EvSpeechStart))) =
  setIsSpeaking true (ctrl (fresh review_props)).
Proof.
  split.
  - split; [reflexivity|]. exists []. split; reflexivity.
  - apply (speech_events_only_toggle_isSpeaking review_props None
             (fresh review_props) true).
    split; [reflexivity|]. exists []. split; reflexivity.
Defined.

(** ** The status *)

Lemma on_event_status ev st :
  callStatus (fst (on_event ev st)) = next_status (callStatus st) (Transport ev).
Proof.
  destruct ev as [| |m| | |e]; try reflexivity.
  cbn [on_event next_status]. unfold onMessage.
  now destruct (is_final_transcript m).
Qed.

Lemma handleCall_status p wf st :
  callStatus (fst (handleCall p wf st)) = CONNECTING.
Proof. unfold handleCall. now destruct (is_generate p). Qed.

Lemma step_status_live p wf w e :
  Live w ->
  callStatus (ctrl (fst (step p wf w e))) = next_status (callStatus (ctrl w)) e.
Proof.
  intros Hw. destruct e as [b|ev|res|].
  - destruct Hw as [Hm _]. unfold step. cbn [enabled]. rewrite Hm.
    cbn [andb]. unfold callButton.
    destruct (Button_eqb _ b) eqn:Hb.
    + rewrite react_ctrl.
      destruct (commit_frame p (ctrl w) (onClick p wf b (ctrl w))) as (-> & _).
      destruct b; cbn [onClick next_status].
      * rewrite handleCall_status.
        destruct (callStatus (ctrl w)); try reflexivity; discriminate Hb.
      * cbn. destruct (callStatus (ctrl w)); try reflexivity; discriminate Hb.
    + cbn [fst]. destruct b; cbn [next_status];
        destruct (callStatus (ctrl w)); try reflexivity; discriminate Hb.
  - rewrite step_transport_live by exact Hw. rewrite react_ctrl.
    destruct (commit_frame p (ctrl w) (on_event ev (ctrl w))) as (-> & _).
    apply on_event_status.
  - unfold step. now destruct (enabled w (GatewayReturn res)).
  - unfold step. now destruct (enabled w Unmount).
Qed.

(** Nothing a torn-down component receives reaches its state. *)
Lemma step_ctrl_dead p wf w e :
  Dead w -> ctrl (fst (step p wf w e)) = ctrl w.
Proof.
  intros Hw. destruct e as [b|ev|res|].
  - now rewrite step_click_dead.
  - now rewrite step_transport_dead, react_skip.
  - unfold step. now destruct (enabled w (GatewayReturn res)).
  - unfold step. now destruct (enabled w Unmount).
Qed.

(** C1, as the code has it.  After start, call-start and stop the status is
    FINISHED; the start button is on screen again and a click on it takes
    the status back to CONNECTING, and a call-start event takes it back to
    ACTIVE. *)
Lemma status_goes_backward_counterexample :
  let w := fst (session review_props None []
                  [Click BtnCall; Transport EvCallStart; Click BtnDisconnect]) in
  let after_start := fst (step review_props None w (Click BtnCall)) in
  let after_call_start := fst (step review_props None w (Transport EvCallStart)) in
  callStatus (ctrl w) = FINISHED /\
  callStatus (ctrl after_start) = CONNECTING /\
  rank (callStatus (ctrl after_start)) < rank (callStatus (ctrl w)) /\
  callStatus (ctrl after_call_start) = ACTIVE /\
  rank (callStatus (ctrl after_call_start)) < rank (callStatus (ctrl w)).
Proof. vm_compute. repeat split; reflexivity || lia. Qed.

(** C1, amended.  In every world one instance can reach, a step from a
    status other than FINISHED never moves the status backward along
    Idle, Connecting, Active, Finished; in particular ACTIVE never turns
    into CONNECTING.  Out of FINISHED the status either stays, or goes to
    CONNECTING by a click on the start button, or goes to ACTIVE by a
    call-start event. *)
Theorem status_moves_forward_until_finished p wf reg0 es e :
  foreign_only reg0 = true ->
  let w := fst (session p wf reg0 es) in
  let s := callStatus (ctrl w) in
  let s' := callStatus (ctrl (fst (step p wf w e))) in
  (s <> FINISHED -> rank s <= rank s') /\
  (s = ACTIVE -> s' <> CONNECTING) /\
  (s = FINISHED ->
   s' = FINISHED \/
   (e = Click BtnCall /\ s' = CONNECTING) \/
   (e = Transport EvCallStart /\ s' = ACTIVE)).
Proof.
  intros Hf w s s'. subst s s'.
  destruct (session_wired p wf reg0 es Hf) as [Hw|Hw]; fold w in Hw.
  - rewrite (step_status_live p wf w e Hw).
    destruct (callStatus (ctrl w)); destruct e as [[|]|[| |m| | |x]|res|];
      cbn [next_status rank]; repeat split;
      try congruence; try lia; intros _; auto.
  - rewrite (step_ctrl_dead p wf w e Hw).
    repeat split; try lia; try congruence; auto.
Qed.

Lemma status_moves_forward_until_finished_witness :
  foreign_only [] = true /\
  rank (callStatus (ctrl (fst (session review_props None [] [Click BtnCall]))))
  <= rank (callStatus (ctrl (fst (step review_props None
             (fst (session review_props None [] [Click BtnCall]))
             (Transport EvCallStart))))).
Proof.
  split; [reflexivity|].
  apply (status_moves_forward_until_finished review_props None []
           [Click BtnCall] (Transport EvCallStart) eq_refl).
  vm_compute. discriminate.
Defined.

(** ** Call completion *)

Lemma completionEffect_finished p st :
  callStatus st = FINISHED ->
  snd (completionEffect p st) = finish_effects p (messages st).
Proof.
  intros H. unfold completionEffect, finish_effects. rewrite H. cbn.
  now destruct (is_generate p).
Qed.

Lemma commit_changed p old new effs :
  deps_changed old new = true ->
  commit p old (new, effs) =
  (fst (completionEffect p new), effs ++ snd (completionEffect p new)).
Proof.
  intros H. unfold commit. rewrite H. now destruct (completionEffect p new).
Qed.

Lemma commit_unchanged p old new effs :
  deps_changed old new = false -> commit p old (new, effs) = (new, effs).
Proof. intros H. unfold commit. now rewrite H. Qed.





(** A handler that ends the call, run in a component whose call is not
    over: the second effect runs once, on the transcript as it stands. *)
Lemma react_finish p (h : Handler) w pre :
  callStatus (ctrl w) <> FINISHED ->
  h (ctrl w) = (setCallStatus FINISHED (ctrl w), pre) ->
  gateway_calls pre = 0 ->
  snd (react p h w) = pre ++ finish_effects p (messages (ctrl w)) /\
  inflight (fst (react p h w)) =
    inflight w + gateway_calls (finish_effects p (messages (ctrl w))).
Proof.
  intros Hs Hh Hpre. unfold react. rewrite Hh, commit_changed.
  - rewrite completionEffect_finished by reflexivity. cbn [fst snd inflight].
    split; [reflexivity|].
    unfold gateway_calls in *.
    rewrite List.filter_app, length_app, Hpre. reflexivity.
  - unfold deps_changed. cbn [setCallStatus callStatus].
    destruct (callStatus (ctrl w)); try congruence; apply orb_true_r.
Qed.

(** The two ways a live component's call ends. *)
Lemma step_enters_finished p wf w e :
  Live w ->
  callStatus (ctrl w) <> FINISHED ->
  callStatus (ctrl (fst (step p wf w e))) = FINISHED ->
  exists pre,
    (pre = [] \/ pre = [VapiStop]) /\
    snd (step p wf w e) = pre ++ finish_effects p (messages (ctrl w)) /\
    inflight (fst (step p wf w e)) =
      inflight w + gateway_calls (finish_effects p (messages (ctrl w))) /\
    is_unmount e = false.
Proof.
  intros Hw Hs Hfin. rewrite (step_status_live p wf w e Hw) in Hfin.
  destruct e as [[|]|[| |m| | |x]|res|]; cbn [next_status] in Hfin;
    try congruence;
    try (destruct (callStatus (ctrl w)); congruence).
  - (* the end button, during an active call *)
    assert (Ha : callStatus (ctrl w) = ACTIVE)
      by (destruct (callStatus (ctrl w)); congruence).
    assert (Hstep : step p wf w (Click BtnDisconnect) = react p handleDisconnect w).
    { unfold step. cbn [enabled]. destruct Hw as [-> _].
      unfold callButton. now rewrite Ha. }
    rewrite Hstep. exists [VapiStop].
    destruct (react_finish p handleDisconnect w [VapiStop] Hs eq_refl eq_refl)
      as [H1 H2].
    auto.
  - (* call-end *)
    rewrite (step_transport_live p wf w EvCallEnd Hw). exists [].
    destruct (react_finish p (on_event EvCallEnd) w [] Hs eq_refl eq_refl)
      as [H1 H2].
    auto.
Qed.


Lemma deps_changed_setMessages f st :
  deps_changed st (setMessages f st) = true.
Proof.
  unfold deps_changed. cbn [setMessages messagesRef].
  assert (H : Nat.eqb (messagesRef st) (S (messagesRef st)) = false)
    by (apply Nat.eqb_neq; lia).
  now rewrite H.
Qed.


(** A step that changes the status is taken by a live component. *)
Lemma status_change_live p wf w e :
  Wired w ->
  callStatus (ctrl (fst (step p wf w e))) <> callStatus (ctrl w) ->
  Live w.
Proof.
  intros [Hw|Hw] Hneq; [exact Hw|].
  now rewrite (step_ctrl_dead p wf w e Hw) in Hneq.
Qed.


(** ** The gateway's answer *)

Lemma truthy_has_identifier res :
  Js.truthy (r_feedbackId res) = true <-> has_identifier res.
Proof.
  unfold Js.truthy, has_identifier. destruct (r_feedbackId res) as [s|].
  - rewrite negb_true_iff, String.eqb_neq. split.
    + intros H. now exists s.
    + now intros (s' & [= ->] & H).
  - split; [discriminate | now intros (s & H & _)].
Qed.

Lemma feedback_view_not_home p : feedback_view p <> "/".
Proof.
  unfold feedback_view.
  change "/interview/" with (String "/" "interview/").
  rewrite append_cons. intros [= H].
Qed.

(** C5.  An interview (review) session that reaches FINISHED submits the
    transcript to the gateway.  When the gateway answers, the component
    navigates to the feedback view of the interview if and only if the
    answer has [success = true] and carries an identifier; on every other
    answer it logs the failure and navigates home.  (An identifier is a
    non-empty string, the test being [success && id].) *)
Theorem review_gateway_answer_decides_signal p wf reg0 es e res :
  is_generate p = false ->
  foreign_only reg0 = true ->
  let w := fst (session p wf reg0 es) in
  let w1 := fst (step p wf w e) in
  callStatus (ctrl w) <> FINISHED ->
  callStatus (ctrl w1) = FINISHED ->
  let signal := snd (step p wf w1 (GatewayReturn res)) in
  In (CreateFeedbackCall {| p_interviewId := interviewId p;
                            p_userId := userId p;
                            p_transcript := messages (ctrl w);
                            p_feedbackId := feedbackId p |})
     (snd (step p wf w e)) /\
  (success res = true /\ has_identifier res ->
   signal = [RouterPush (feedback_view p)]) /\
  (~ (success res = true /\ has_identifier res) ->
   signal = [ConsoleLog ["Error saving feedback"]; RouterPush "/"]) /\
  (In (RouterPush (feedback_view p)) signal <->
   success res = true /\ has_identifier res).
Proof.
  intros Hmode Hf w w1 Hs Hfin signal.
  assert (Hw : Live w).
  { apply (status_change_live p wf w e).
    - apply session_wired, Hf.
    - fold w1. congruence. }
  destruct (step_enters_finished p wf w e Hw Hs Hfin)
    as (pre & _ & Heffs & Hin & _).
  unfold finish_effects in Heffs, Hin. rewrite Hmode in Heffs, Hin.
  assert (Hsig : signal = handleGenerateFeedback_resume p res).
  { subst signal. unfold step. cbn [enabled]. fold w1 in Hin. rewrite Hin.
    unfold handleGenerateFeedback, gateway_calls. cbn [List.filter is_gateway_call length].
    now rewrite Nat.add_1_r. }
  assert (Hcase : success res && Js.truthy (r_feedbackId res) = true <->
                  success res = true /\ has_identifier res).
  { now rewrite andb_true_iff, truthy_has_identifier. }
  split.
  { rewrite Heffs. apply in_or_app. right. unfold handleGenerateFeedback.
    right. now left. }
  rewrite Hsig. unfold handleGenerateFeedback_resume. fold (feedback_view p).
  destruct (success res && Js.truthy (r_feedbackId res)) eqn:Hok.
  - assert (Hyes : success res = true /\ has_identifier res) by now apply Hcase.
    split; [reflexivity|]. split; [intros Hno; now destruct Hno|].
    split; [now intros _ | intros _; now left].
  - assert (Hno : ~ (success res = true /\ has_identifier res)).
    { intros Hyes. apply Hcase in Hyes. congruence. }
    split; [intros Hyes; now destruct Hno|]. split; [reflexivity|].
    split; [|intros Hyes; now destruct Hno].
    intros [H|[H|[]]]; [discriminate H|].
    exfalso. apply (feedback_view_not_home p). congruence.
Qed.

Lemma review_gateway_answer_decides_signal_witness :
  is_generate review_props = false /\ foreign_only [] = true /\
  snd (step review_props None
         (fst (step review_props None
                 (fst (session review_props None []
                         [Click BtnCall; Transport EvCallStart]))
                 (Transport EvCallEnd)))
         (GatewayReturn {| success := true; r_feedbackId := Some "abc" |}))
  = [RouterPush "/interview/i1/feedback"].
Proof.
  split; [reflexivity|]. split; [reflexivity|].
  apply (review_gateway_answer_decides_signal review_props None []
           [Click BtnCall; Transport EvCallStart] (Transport EvCallEnd)
           {| success := true; r_feedbackId := Some "abc" |}
           eq_refl eq_refl);
    [vm_compute; discriminate | reflexivity |].
  split; [reflexivity|]. exists "abc". split; [reflexivity | discriminate].
Defined.

(** ** Generate sessions *)

Lemma home_only_no_gateway effs :
  forallb home_only effs = true -> gateway_calls effs = 0.
Proof.
  unfold gateway_calls. induction effs as [|x effs IH]; [reflexivity|].
  cbn [forallb List.filter]. intros H. apply andb_true_iff in H as [Hx H].
  destruct x; cbn [is_gateway_call]; try (now apply IH). discriminate Hx.
Qed.

Lemma invoke_home_only fn ev st : forallb home_only (snd (invoke fn ev st)) = true.
Proof.
  destruct fn, ev; try reflexivity.
  cbn [invoke]. unfold onMessage. now destruct (is_final_transcript m).
Qed.

Lemma emit_home_only reg ev : forall st,
  forallb home_only (snd (emit reg ev st)) = true.
Proof.
  induction reg as [|[n fn] reg IH]; intros st; [reflexivity|].
  cbn [emit]. destruct (String.eqb n (event_name ev)); [|apply IH].
  unfold andThen. pose proof (invoke_home_only fn ev st) as H1.
  destruct (invoke fn ev st) as [st1 e1]. pose proof (IH st1) as H2.
  destruct (emit reg ev st1) as [st2 e2]. cbn [snd] in *.
  now rewrite forallb_app, H1, H2.
Qed.

Lemma onClick_home_only p wf b st :
  forallb home_only (snd (onClick p wf b st)) = true.
Proof.
  destruct b; [|reflexivity]. cbn [onClick]. unfold handleCall.
  now destruct (is_generate p).
Qed.

Lemma completionEffect_generate p st :
  is_generate p = true -> forallb home_only (snd (completionEffect p st)) = true.
Proof.
  intros Hmode. unfold completionEffect. rewrite Hmode.
  now destruct (CallStatus_eqb (callStatus st) FINISHED).
Qed.

Lemma react_generate p h w :
  is_generate p = true -> inflight w = 0 ->
  forallb home_only (snd (h (ctrl w))) = true ->
  forallb home_only (snd (react p h w)) = true /\
  inflight (fst (react p h w)) = 0.
Proof.
  intros Hmode Hin Hh. unfold react, commit.
  destruct (h (ctrl w)) as [new effs]. cbn [snd] in Hh.
  assert (Hall : forallb home_only
            (snd (if deps_changed (ctrl w) new
                  then let (new', effs') := completionEffect p new in
                       (new', effs ++ effs')
                  else (new, effs))) = true).
  { destruct (deps_changed (ctrl w) new); [|exact Hh].
    pose proof (completionEffect_generate p new Hmode) as Hc.
    destruct (completionEffect p new) as [new' effs']. cbn [snd] in *.
    now rewrite forallb_app, Hh, Hc. }
  destruct (if deps_changed (ctrl w) new then _ else _) as [st effs1].
  cbn [fst snd inflight] in *. split; [exact Hall|].
  now rewrite Hin, (home_only_no_gateway _ Hall).
Qed.

Lemma step_generate p wf w e :
  is_generate p = true -> inflight w = 0 ->
  forallb home_only (snd (step p wf w e)) = true /\
  inflight (fst (step p wf w e)) = 0.
Proof.
  intros Hmode Hin. unfold step.
  destruct (enabled w e) eqn:He; [|now split].
  destruct e as [b|ev|res|].
  - apply react_generate; auto using onClick_home_only.
  - apply react_generate; auto using emit_home_only.
  - cbn [enabled] in He. now rewrite Hin in He.
  - now split.
Qed.

Lemma run_generate p wf es : forall w,
  is_generate p = true -> inflight w = 0 ->
  forallb home_only (snd (run p wf w es)) = true.
Proof.
  induction es as [|e es IH]; intros w Hmode Hin; [reflexivity|].
  destruct (step_generate p wf w e Hmode Hin) as [H1 H2].
  rewrite run_cons. cbn [snd]. now rewrite forallb_app, H1, IH.
Qed.

(** C6.  In a generate session nothing the component ever does is a
    gateway invocation, every navigation it performs is the exit to home,
    and the step that takes the status to FINISHED performs that
    navigation. *)
Theorem generate_never_invokes_gateway p wf reg0 es e :
  is_generate p = true ->
  foreign_only reg0 = true ->
  let w := fst (session p wf reg0 es) in
  let log := snd (session p wf reg0 es) in
  gateway_calls log = 0 /\
  (forall params, ~ In (CreateFeedbackCall params) log) /\
  (forall path, In (RouterPush path) log -> path = "/") /\
  (callStatus (ctrl w) <> FINISHED ->
   callStatus (ctrl (fst (step p wf w e))) = FINISHED ->
   In (RouterPush "/") (snd (step p wf w e)) /\
   gateway_calls (snd (step p wf w e)) = 0).
Proof.
  intros Hmode Hf w log.
  assert (Hlog : forallb home_only log = true).
  { subst log. rewrite session_run. now apply run_generate. }
  split; [now apply home_only_no_gateway|].
  rewrite forallb_forall in Hlog.
  split; [|split].
  - intros params Hin. now apply Hlog in Hin.
  - intros path Hin. apply Hlog in Hin. now apply String.eqb_eq in Hin.
  - intros Hs Hfin.
    assert (Hw : Live w).
    { apply (status_change_live p wf w e).
      - apply session_wired, Hf.
      - congruence. }
    destruct (step_enters_finished p wf w e Hw Hs Hfin)
      as (pre & Hpre & Heffs & _ & _).
    unfold finish_effects in Heffs. rewrite Hmode in Heffs. rewrite Heffs.
    split.
    + apply in_or_app. right. now left.
    + now destruct Hpre as [-> | ->].
Qed.

Lemma generate_never_invokes_gateway_witness :
  is_generate generate_props = true /\ foreign_only [] = true /\
  gateway_calls
    (snd (session generate_props None []
            [Click BtnCall; Transport EvCallStart; Click BtnDisconnect;
             Transport EvCallEnd])) = 0.
Proof.
  split; [reflexivity|]. split; [reflexivity|].
  exact (proj1 (generate_never_invokes_gateway generate_props None []
                  [Click BtnCall; Transport EvCallStart; Click BtnDisconnect;
                   Transport EvCallEnd] Unmount eq_refl eq_refl)).
Defined.

(** ** Teardown *)

Lemma step_wiring p wf w e :
  is_unmount e = false ->
  registry (fst (step p wf w e)) = registry w /\
  mounted (fst (step p wf w e)) = mounted w.
Proof.
  intros Hu. unfold step. destruct (enabled w e); [|now split].
  destruct e as [b|ev|res|]; try discriminate Hu.
  - destruct (react_wiring p (onClick p wf b) w); now split.
  - destruct (react_wiring p (emit (registry w) ev) w); now split.
  - now split.
Qed.

Lemma run_wiring p wf es : forall w,
  forallb (fun e => negb (is_unmount e)) es = true ->
  registry (fst (run p wf w es)) = registry w /\
  mounted (fst (run p wf w es)) = mounted w.
Proof.
  induction es as [|e es IH]; intros w Hes; [now split|].
  cbn [forallb] in Hes. apply andb_true_iff in Hes as [He Hes].
  apply negb_true_iff in He. rewrite run_cons. cbn [fst].
  destruct (IH (fst (step p wf w e)) Hes) as [-> ->].
  now apply step_wiring.
Qed.

Lemma step_dead p wf w e : Dead w -> Dead (fst (step p wf w e)).
Proof.
  intros Hw. destruct e as [b|ev|res|].
  - now rewrite step_click_dead.
  - now rewrite step_transport_dead, react_skip.
  - unfold step. now destruct (enabled w (GatewayReturn res)).
  - unfold step. cbn [enabled]. destruct Hw as [Hm Hf]. now rewrite Hm.
Qed.

Lemma run_ctrl_dead p wf es : forall w,
  Dead w -> ctrl (fst (run p wf w es)) = ctrl w.
Proof.
  induction es as [|e es IH]; intros w Hw; [reflexivity|].
  rewrite run_cons. cbn [fst]. rewrite IH by now apply step_dead.
  now apply step_ctrl_dead.
Qed.

Lemma foreign_only_not_own reg s :
  foreign_only reg = true -> In s subscriptions -> ~ In s reg.
Proof.
  intros Hf Hs Hin. unfold foreign_only in Hf. rewrite forallb_forall in Hf.
  apply Hf in Hin. cbn in Hs.
  repeat (destruct Hs as [<- | Hs]; [discriminate Hin|]). exact Hs.
Qed.

(** C8.  A component mounted on a registry that holds none of its
    listeners has its six subscriptions registered for as long as it is
    mounted.  Unmounting it, in whatever state the session is, removes all
    six and leaves the registry as it was found; from then on no event,
    transport events included, changes the component's state. *)
Theorem teardown_removes_every_subscription p wf reg0 es (later : list Event) :
  foreign_only reg0 = true ->
  forallb (fun e => negb (is_unmount e)) es = true ->
  let w := fst (session p wf reg0 es) in
  let w' := fst (step p wf w Unmount) in
  registry w = reg0 ++ subscriptions /\
  registry w' = reg0 /\
  (forall s, In s subscriptions -> ~ In s (registry w')) /\
  ctrl w' = ctrl w /\
  ctrl (fst (run p wf w' later)) = ctrl w'.
Proof.
  intros Hf Hes w w'.
  assert (Hw : registry w = subscribe reg0 /\ mounted w = true).
  { subst w. rewrite session_run. now apply run_wiring. }
  destruct Hw as [Hreg Hm].
  assert (Hstep : step p wf w Unmount = (unmount w, [])).
  { unfold step. cbn [enabled]. now rewrite Hm. }
  assert (Hreg' : registry w' = reg0).
  { subst w'. rewrite Hstep. cbn [fst unmount registry].
    now rewrite Hreg, cleanup_subscribe. }
  split; [now rewrite Hreg, subscribe_app|].
  split; [exact Hreg'|].
  split; [intros s Hs; rewrite Hreg'; now apply foreign_only_not_own|].
  split; [subst w'; now rewrite Hstep|].
  apply run_ctrl_dead. split.
  - subst w'. now rewrite Hstep.
  - now rewrite Hreg'.
Qed.

Lemma teardown_removes_every_subscription_witness :
  foreign_only [("message", Foreign 7)] = true /\
  registry (fst (step review_props None
                   (fst (session review_props None [("message", Foreign 7)]
                           [Click BtnCall; Transport EvCallStart]))
                   Unmount))
  = [("message", Foreign 7)].
Proof.
  split; [reflexivity|].
  apply (teardown_removes_every_subscription review_props None
           [("message", Foreign 7)] [Click BtnCall; Transport EvCallStart] []
           eq_refl eq_refl).
Defined.

(** ** [createFeedback] *)

Lemma split_slash_plain s : has_slash s = false -> GeneralAction.split_slash s = [s].
Proof.
  induction s as [|a s IH]; [reflexivity|].
  cbn [has_slash GeneralAction.split_slash]. intros H.
  apply orb_false_iff in H as [Ha Hs]. rewrite Ha, (IH Hs). reflexivity.
Qed.

Lemma has_double_slash_plain s :
  has_slash s = false -> GeneralAction.has_double_slash s = false.
Proof.
  induction s as [|a s IH]; [reflexivity|].
  cbn [has_slash]. intros H. apply orb_false_iff in H as [Ha Hs].
  cbn [GeneralAction.has_double_slash]. destruct s as [|b s]; [reflexivity|].
  rewrite Ha. cbn [andb orb]. now apply IH.
Qed.

(** A document name refers to the document of that name in the collection
    itself. *)
Lemma doc_plain be fid :
  plain_name fid = true ->
  GeneralAction.doc (Some fid) be =
  Some {| GeneralAction.parent := ["feedback"]; GeneralAction.id := fid |}.
Proof.
  unfold plain_name. intros H. apply andb_true_iff in H as [Hne Hs].
  apply negb_true_iff in Hne, Hs.
  unfold GeneralAction.doc.
  rewrite Hne, (has_double_slash_plain fid Hs), (split_slash_plain fid Hs).
  cbn [orb List.filter]. rewrite Hne. reflexivity.
Qed.

Lemma plain_name_truthy fid : plain_name fid = true -> Js.truthy (Some fid) = true.
Proof.
  unfold plain_name. intros H. apply andb_true_iff in H as [Hne _]. exact Hne.
Qed.

(** What a call does, by its outcome. *)
Lemma createFeedback_cases be params db :
  let r := GeneralAction.createFeedback be params db in
  (success (fst r) = false /\ r_feedbackId (fst r) = None /\ snd r = db) \/
  (exists object feedbackRef,
     GeneralAction.generateObject be
       (GeneralAction.formattedTranscript (p_transcript params)) = Some object /\
     GeneralAction.set_ok be = true /\
     (if Js.truthy (p_feedbackId params)
      then GeneralAction.doc (p_feedbackId params) be
      else GeneralAction.doc None be) = Some feedbackRef /\
     success (fst r) = true /\
     r_feedbackId (fst r) = Some (GeneralAction.id feedbackRef) /\
     snd r =
       if decide (GeneralAction.parent feedbackRef = ["feedback"])
       then <[GeneralAction.id feedbackRef := feedback_of be params object]> db
       else db).
Proof.
  cbv zeta. unfold GeneralAction.createFeedback.
  destruct (GeneralAction.generateObject be _) as [object|] eqn:Hg; [|now left].
  destruct (if Js.truthy (p_feedbackId params)
            then GeneralAction.doc (p_feedbackId params) be
            else GeneralAction.doc None be) as [feedbackRef|] eqn:Hdoc;
    [|now left].
  destruct (GeneralAction.set_ok be) eqn:Hs; [|now left].
  right. exists object, feedbackRef. cbn [fst snd success r_feedbackId].
  repeat split; reflexivity.
Qed.

(** C10, as the code has it.  A feedback identifier that is a path of
    three segments is accepted: the call resolves with [success: true], the
    identifier it returns is the last segment, not the identifier passed
    in, and no document of the collection itself is written. *)
Lemma createFeedback_returns_last_segment_counterexample :
  let r := GeneralAction.createFeedback sample_backend sample_params_nested ∅ in
  p_feedbackId sample_params_nested = Some "a/b/c" /\
  success (fst r) = true /\
  r_feedbackId (fst r) = Some "c" /\
  r_feedbackId (fst r) <> p_feedbackId sample_params_nested /\
  snd r = ∅.
Proof.
  cbv zeta. repeat split; try reflexivity. discriminate.
Qed.

(** C10, amended.  A call of [createFeedback] that is given a feedback
    identifier that is a document name (not empty, no slash) and resolves
    with [success = true] returns that same identifier, and what it did to
    the collection is to write the document under that identifier: every
    other document is as before, and no document is added when one with
    that identifier was there. *)
Theorem createFeedback_returns_given_id
    (be : GeneralAction.Backend) (params : CreateFeedbackParams)
    (db : gmap string GeneralAction.Feedback) (fid : string) :
  p_feedbackId params = Some fid ->
  plain_name fid = true ->
  success (fst (GeneralAction.createFeedback be params db)) = true ->
  r_feedbackId (fst (GeneralAction.createFeedback be params db)) = Some fid /\
  (exists feedback,
      snd (GeneralAction.createFeedback be params db) = <[fid := feedback]> db) /\
  (forall k, k <> fid ->
      snd (GeneralAction.createFeedback be params db) !! k = db !! k) /\
  (is_Some (db !! fid) ->
      dom (snd (GeneralAction.createFeedback be params db)) = dom db).
Proof.
  intros Hfid Hplain Hs.
  destruct (createFeedback_cases be params db)
    as [(Hf & _) | (object & feedbackRef & _ & _ & Hdoc & _ & Hid & Hdb)];
    [congruence|].
  rewrite Hfid, (plain_name_truthy fid Hplain), (doc_plain be fid Hplain) in Hdoc.
  injection Hdoc as <-. cbn [GeneralAction.id GeneralAction.parent] in Hid, Hdb.
  rewrite decide_True in Hdb by reflexivity.
  rewrite Hid, Hdb. split; [reflexivity|]. split; [eauto|]. split.
  - intros k Hk. now rewrite lookup_insert_ne.
  - intros Hsome. rewrite dom_insert_L.
    apply subseteq_union_1_L, singleton_subseteq_l.
    now apply elem_of_dom.
Qed.

Lemma createFeedback_returns_given_id_witness :
  p_feedbackId sample_params = Some "fb1" /\ plain_name "fb1" = true /\
  success (fst (GeneralAction.createFeedback sample_backend sample_params ∅))
  = true /\
  r_feedbackId (fst (GeneralAction.createFeedback sample_backend sample_params ∅))
  = Some "fb1".
Proof.
  split; [reflexivity|]. split; [reflexivity|]. split; [reflexivity|].
  apply (createFeedback_returns_given_id sample_backend sample_params ∅ "fb1");
    reflexivity.
Defined.

(** * Further properties of the component *)

(** ** What a step does to the outside world *)

Lemma CallStatus_eqb_eq a b : CallStatus_eqb a b = true <-> a = b.
Proof. destruct a, b; cbn; split; congruence. Qed.

(** A render runs the second effect at most once, and it does something
    only when the call is over. *)
Lemma commit_shape p old r :
  exists tail,
    snd (commit p old r) = snd r ++ tail /\
    (tail = [] \/
     (callStatus (fst r) = FINISHED /\
      tail = finish_effects p (messages (fst r)))).
Proof.
  destruct r as [new effs]. unfold commit.
  destruct (deps_changed old new).
  - pose proof (completionEffect_finished p new) as Hfin.
    assert (Hnot : CallStatus_eqb (callStatus new) FINISHED = false ->
                   snd (completionEffect p new) = []).
    { intros Hs. unfold completionEffect. now rewrite Hs. }
    destruct (completionEffect p new) as [new' tail]. cbn [fst snd] in *.
    exists tail. split; [reflexivity|].
    destruct (CallStatus_eqb (callStatus new) FINISHED) eqn:Hs.
    + apply CallStatus_eqb_eq in Hs. right. auto.
    + left. now apply Hnot.
  - exists []. cbn [snd]. rewrite app_nil_r. auto.
Qed.

Lemma invoke_logs fn ev st : forallb is_log (snd (invoke fn ev st)) = true.
Proof.
  destruct fn, ev; try reflexivity.
  cbn [invoke]. unfold onMessage. now destruct (is_final_transcript m).
Qed.

(** Listeners only ever write to the console. *)
Lemma emit_logs reg ev : forall st,
  forallb is_log (snd (emit reg ev st)) = true.
Proof.
  induction reg as [|[n fn] reg IH]; intros st; [reflexivity|].
  cbn [emit]. destruct (String.eqb n (event_name ev)); [|apply IH].
  unfold andThen. pose proof (invoke_logs fn ev st) as H1.
  destruct (invoke fn ev st) as [st1 e1]. pose proof (IH st1) as H2.
  destruct (emit reg ev st1) as [st2 e2]. cbn [snd] in *.
  now rewrite forallb_app, H1, H2.
Qed.

Lemma onClick_effects p wf b st :
  snd (onClick p wf b st) =
  match b with BtnCall => [start_effect p wf] | BtnDisconnect => [VapiStop] end.
Proof.
  destruct b; [|reflexivity]. cbn [onClick]. unfold handleCall, start_effect.
  destruct (is_generate p); cbn [snd]; [reflexivity|].
  now rewrite formattedQuestions_entry.
Qed.

Lemma logs_allowed p wf effs :
  forallb is_log effs = true -> Forall (allowed p wf) effs.
Proof.
  rewrite forallb_forall, List.Forall_forall. intros H x Hx.
  apply H in Hx. now destruct x.
Qed.

Lemma finish_effects_allowed p wf msgs :
  Forall (allowed p wf) (finish_effects p msgs).
Proof.
  unfold finish_effects, handleGenerateFeedback.
  destruct (is_generate p); repeat constructor.
Qed.

Lemma resume_allowed p wf res :
  Forall (allowed p wf) (handleGenerateFeedback_resume p res).
Proof.
  unfold handleGenerateFeedback_resume. fold (feedback_view p).
  destruct (success res && Js.truthy (r_feedbackId res)).
  - constructor; [now right | constructor].
  - constructor; [exact I|]. constructor; [now left | constructor].
Qed.

Lemma start_effect_allowed p wf : allowed p wf (start_effect p wf).
Proof. unfold allowed, start_effect. now destruct (is_generate p). Qed.

Lemma react_allowed p wf h w :
  Forall (allowed p wf) (snd (h (ctrl w))) ->
  Forall (allowed p wf) (snd (react p h w)).
Proof.
  intros Hh. rewrite react_effects.
  destruct (commit_shape p (ctrl w) (h (ctrl w))) as (tail & -> & Htail).
  apply Forall_app. split; [exact Hh|].
  destruct Htail as [-> | [_ ->]]; [constructor|].
  apply finish_effects_allowed.
Qed.

Lemma step_allowed p wf w e : Forall (allowed p wf) (snd (step p wf w e)).
Proof.
  unfold step. destruct (enabled w e); [|constructor].
  destruct e as [b|ev|res|].
  - apply react_allowed. rewrite onClick_effects.
    destruct b; repeat constructor. apply start_effect_allowed.
  - apply react_allowed, logs_allowed, emit_logs.
  - apply resume_allowed.
  - constructor.
Qed.

(** X1.  Whatever the registry holds and whatever happens to an instance,
    everything it does is a console line, the start request of its mode,
    a stop request, a navigation to home or to the feedback view of its
    interview, or a feedback submission that carries its own interview,
    user and feedback identifiers. *)
Theorem session_effects_allowed p wf reg0 es :
  Forall (allowed p wf) (snd (session p wf reg0 es)).
Proof.
  rewrite session_run. generalize (fst (mount p reg0)).
  induction es as [|e es IH]; intros w; [constructor|].
  rewrite run_cons. cbn [snd]. apply Forall_app. split.
  - apply step_allowed.
  - apply IH.
Qed.

(** ** Requests to the transport *)

Lemma commands_logs effs :
  forallb is_log effs = true -> List.filter is_command effs = [].
Proof.
  induction effs as [|x effs IH]; [reflexivity|].
  cbn [forallb]. intros H. apply andb_true_iff in H as [Hx H].
  destruct x; try discriminate Hx. cbn. now apply IH.
Qed.

Lemma commands_finish p msgs :
  List.filter is_command (finish_effects p msgs) = [].
Proof. unfold finish_effects. now destruct (is_generate p). Qed.

Lemma commands_react p h w :
  List.filter is_command (snd (react p h w)) =
  List.filter is_command (snd (h (ctrl w))).
Proof.
  rewrite react_effects.
  destruct (commit_shape p (ctrl w) (h (ctrl w))) as (tail & -> & Htail).
  rewrite List.filter_app.
  destruct Htail as [-> | [_ ->]]; [|rewrite commands_finish];
    apply app_nil_r.
Qed.

(** X2.  A step sends a request to the transport only when it is an
    accepted click: the start request when the start button is on screen
    (mounted, status not ACTIVE), the stop request when the end button is
    (mounted, status ACTIVE); one request at most.  Transport events,
    gateway answers and unmounting send none. *)
Theorem transport_requests_come_from_clicks p wf w e :
  List.filter is_command (snd (step p wf w e)) = expected_commands p wf w e.
Proof.
  unfold step, expected_commands. destruct e as [b|ev|res|]; cbn [enabled].
  - unfold callButton.
    destruct (mounted w); cbn [andb];
      [|now destruct b].
    destruct b, (callStatus (ctrl w)); cbn [CallStatus_eqb negb Button_eqb snd List.filter];
      try reflexivity;
      rewrite commands_react, onClick_effects; unfold start_effect;
      try reflexivity; now destruct (is_generate p).
  - rewrite commands_react. apply commands_logs, emit_logs.
  - destruct (negb (Nat.eqb (inflight w) 0)); [|reflexivity].
    unfold handleGenerateFeedback_resume.
    now destruct (success res && Js.truthy (r_feedbackId res)).
  - now destruct (mounted w).
Qed.

(** ** Events that leave the component alone *)

Lemma react_noop p (h : Handler) w effs :
  h (ctrl w) = (ctrl w, effs) -> gateway_calls effs = 0 ->
  react p h w = (w, effs).
Proof.
  intros Hh Hg. unfold react. rewrite Hh.
  rewrite commit_unchanged by apply deps_changed_refl.
  rewrite Hg, Nat.add_0_r. now destruct w.
Qed.

(** X3.  In a mounted component a transport error is written to the
    console and nothing else happens: the whole world is as before.  A
    message that is not a final transcript does not even do that. *)
Theorem error_and_interim_messages_change_nothing p wf w :
  Live w ->
  (forall x, step p wf w (Transport (EvError x)) =
             (w, [ConsoleLog ["Error:"; x]])) /\
  (forall m, is_final_transcript m = false ->
             step p wf w (Transport (EvMessage m)) = (w, [])).
Proof.
  intros Hw. split.
  - intros x. rewrite step_transport_live by exact Hw.
    now apply react_noop.
  - intros m Hm. rewrite step_transport_live by exact Hw.
    apply react_noop; [|reflexivity].
    cbn [on_event]. unfold onMessage. now rewrite Hm.
Qed.

Lemma error_and_interim_messages_change_nothing_witness :
  Live (fresh review_props) /\
  step review_props None (fresh review_props) (Transport (EvError "boom")) =
  (fresh review_props, [ConsoleLog ["Error:"; "boom"]]).
Proof.
  split.
  - split; [reflexivity|]. exists []. split; reflexivity.
  - apply (error_and_interim_messages_change_nothing review_props None
             (fresh review_props)).
    split; [reflexivity|]. exists []. split; reflexivity.
Defined.

(** ** The transcript panel *)

Lemma commit_panel p old new effs :
  panel_in_step new \/ (deps_changed old new = true /\ messages new <> []) ->
  panel_in_step (fst (commit p old (new, effs))).
Proof.
  intros H. unfold commit. destruct (deps_changed old new) eqn:Hd.
  - assert (Hst : fst (completionEffect p new) =
                  match last (messages new) with
                  | Some m => setLastMessage (content m) new
                  | None => new
                  end) by apply completionEffect_state.
    destruct (completionEffect p new) as [new' effs']. cbn [fst] in *.
    subst new'. destruct (last (messages new)) as [m|] eqn:Hl.
    + unfold panel_in_step. cbn [setLastMessage messages lastMessage].
      now rewrite Hl.
    + destruct H as [H|[_ H]]; [exact H|].
      apply last_None in Hl. contradiction.
  - destruct H as [H|[H _]]; [exact H | discriminate H].
Qed.

Lemma onClick_panel p wf b st :
  panel_in_step st -> panel_in_step (fst (onClick p wf b st)).
Proof.
  destruct b; cbn [onClick]; [|now intros H].
  unfold handleCall. now destruct (is_generate p).
Qed.

Lemma on_event_panel ev st :
  panel_in_step st ->
  panel_in_step (fst (on_event ev st)) \/
  (deps_changed st (fst (on_event ev st)) = true /\
   messages (fst (on_event ev st)) <> []).
Proof.
  intros H. destruct ev as [| |m| | |x]; cbn [on_event]; try (now left).
  unfold onMessage. destruct (is_final_transcript m); [|now left].
  right. cbn [fst]. split; [apply deps_changed_setMessages|].
  cbn [setMessages messages]. now destruct (messages st).
Qed.

Lemma step_panel p wf w e :
  Wired w -> panel_in_step (ctrl w) ->
  panel_in_step (ctrl (fst (step p wf w e))).
Proof.
  intros [Hw|Hw] Hp; [|now rewrite step_ctrl_dead].
  destruct e as [b|ev|res|].
  - unfold step. destruct (enabled w (Click b)); [|exact Hp].
    rewrite react_ctrl.
    destruct (onClick p wf b (ctrl w)) as [new effs] eqn:Hh.
    apply commit_panel. left.
    change new with (fst (new, effs)). rewrite <- Hh. now apply onClick_panel.
  - rewrite step_transport_live by exact Hw. rewrite react_ctrl.
    pose proof (on_event_panel ev (ctrl w) Hp) as H.
    destruct (on_event ev (ctrl w)) as [new effs]. now apply commit_panel.
  - unfold step. now destruct (enabled w (GatewayReturn res)).
  - unfold step. now destruct (enabled w Unmount).
Qed.

(** ** The transcript over a whole session *)

Lemma run_messages_dead p wf es w :
  Dead w -> messages (ctrl (fst (run p wf w es))) = messages (ctrl w).
Proof. intros Hw. now rewrite run_ctrl_dead. Qed.

Lemma run_messages_until_unmount p wf es : forall w,
  Live w ->
  messages (ctrl (fst (run p wf w es))) =
  messages (ctrl w) ++ utterances (before_unmount es).
Proof.
  induction es as [|e es IH]; intros w Hw.
  - cbn. now rewrite app_nil_r.
  - rewrite run_cons. cbn [fst].
    destruct (is_unmount e) eqn:Hu.
    + destruct e; try discriminate Hu. cbn [before_unmount utterances].
      rewrite app_nil_r.
      assert (Hd : Dead (fst (step p wf w Unmount))).
      { destruct (step_wired p wf w Unmount (or_introl Hw)) as [[Hm _]|Hd];
          [|exact Hd].
        unfold step in Hm. cbn [enabled] in Hm.
        destruct Hw as [Hmw _]. rewrite Hmw in Hm. discriminate Hm. }
      rewrite run_messages_dead by exact Hd.
      unfold step. now destruct (enabled w Unmount).
    + rewrite IH by now apply step_live.
      rewrite step_messages by assumption.
      assert (Hb : before_unmount (e :: es) = e :: before_unmount es)
        by (now destruct e).
      now rewrite Hb, (utterances_cons e (before_unmount es)), app_assoc.
Qed.

(** X5.  At every point of a session the transcript is exactly the final
    transcripts the transport delivered while the component was mounted,
    in the order of their arrival: nothing else is ever added, nothing is
    removed or reordered, and what arrives after unmounting is not
    recorded. *)
Theorem transcript_is_final_messages_while_mounted p wf reg0 es :
  foreign_only reg0 = true ->
  messages (ctrl (fst (session p wf reg0 es))) = utterances (before_unmount es).
Proof.
  intros Hf. rewrite session_run.
  now rewrite run_messages_until_unmount by now apply mount_live.
Qed.

Lemma transcript_is_final_messages_while_mounted_witness :
  foreign_only [] = true /\
  messages (ctrl (fst (session review_props None []
    [Transport (EvMessage (transcript_msg "final" user "Hi"));
     Unmount;
     Transport (EvMessage (transcript_msg "final" user "late"))])))
  = [{| role := user; content := "Hi" |}].
Proof.
  split; [reflexivity|].
  apply (transcript_is_final_messages_while_mounted review_props None []
    [Transport (EvMessage (transcript_msg "final" user "Hi"));
     Unmount;
     Transport (EvMessage (transcript_msg "final" user "late"))] eq_refl).
Defined.

(** ** Navigations answer submissions *)

Lemma pushes_app a b : pushes (a ++ b) = pushes a + pushes b.
Proof. unfold pushes. now rewrite List.filter_app, length_app. Qed.

Lemma gateway_calls_app a b :
  gateway_calls (a ++ b) = gateway_calls a + gateway_calls b.
Proof. unfold gateway_calls. now rewrite List.filter_app, length_app. Qed.

Lemma pushes_logs effs : forallb is_log effs = true -> pushes effs = 0.
Proof.
  unfold pushes. induction effs as [|x effs IH]; [reflexivity|].
  cbn [forallb]. intros H. apply andb_true_iff in H as [Hx H].
  destruct x; try discriminate Hx. cbn. now apply IH.
Qed.

Lemma react_inflight p h w :
  inflight (fst (react p h w)) = inflight w + gateway_calls (snd (react p h w)).
Proof. unfold react. now destruct (commit p (ctrl w) (h (ctrl w))). Qed.

Lemma react_review_pushes p h w :
  is_generate p = false -> pushes (snd (h (ctrl w))) = 0 ->
  pushes (snd (react p h w)) = 0.
Proof.
  intros Hmode Hh. rewrite react_effects.
  destruct (commit_shape p (ctrl w) (h (ctrl w))) as (tail & -> & Htail).
  rewrite pushes_app, Hh.
  destruct Htail as [-> | [_ ->]]; [reflexivity|].
  unfold finish_effects. now rewrite Hmode.
Qed.

Lemma step_review_accounting p wf w e :
  is_generate p = false ->
  pushes (snd (step p wf w e)) + inflight (fst (step p wf w e)) =
  inflight w + gateway_calls (snd (step p wf w e)).
Proof.
  intros Hmode. unfold step. destruct (enabled w e) eqn:He;
    [|cbn; lia].
  destruct e as [b|ev|res|].
  - rewrite react_inflight, react_review_pushes; [lia | exact Hmode |].
    rewrite onClick_effects. destruct b; [|reflexivity].
    unfold start_effect. now rewrite Hmode.
  - rewrite react_inflight, react_review_pushes; [lia | exact Hmode |].
    apply pushes_logs, emit_logs.
  - cbn [enabled] in He. apply negb_true_iff, Nat.eqb_neq in He.
    cbn [fst snd inflight]. unfold handleGenerateFeedback_resume.
    destruct (success res && Js.truthy (r_feedbackId res)); cbn; lia.
  - cbn. lia.
Qed.

Lemma run_review_accounting p wf es : forall w,
  is_generate p = false ->
  pushes (snd (run p wf w es)) + inflight (fst (run p wf w es)) =
  inflight w + gateway_calls (snd (run p wf w es)).
Proof.
  induction es as [|e es IH]; intros w Hmode; [cbn; lia|].
  rewrite run_cons. cbn [fst snd]. rewrite pushes_app, gateway_calls_app.
  pose proof (step_review_accounting p wf w e Hmode).
  pose proof (IH (fst (step p wf w e)) Hmode). lia.
Qed.

(** X6.  In an interview session every navigation answers a feedback
    submission: at every point the navigations performed and the
    submissions still waiting for the gateway add up to the submissions
    made.  This holds across unmounting: an answer that arrives after the
    component is gone still navigates. *)
Theorem review_navigations_answer_submissions p wf reg0 es :
  is_generate p = false ->
  pushes (snd (session p wf reg0 es)) + inflight (fst (session p wf reg0 es))
  = gateway_calls (snd (session p wf reg0 es)).
Proof.
  intros Hmode. rewrite session_run.
  now rewrite run_review_accounting.
Qed.

Lemma review_navigations_answer_submissions_witness :
  is_generate review_props = false /\
  pushes (snd (session review_props None []
    [Click BtnCall; Transport EvCallStart; Transport EvCallEnd; Unmount;
     GatewayReturn {| success := true; r_feedbackId := Some "abc" |}]))
  + 0 = 1.
Proof.
  split; [reflexivity|].
  exact (review_navigations_answer_submissions review_props None []
    [Click BtnCall; Transport EvCallStart; Transport EvCallEnd; Unmount;
     GatewayReturn {| success := true; r_feedbackId := Some "abc" |}] eq_refl).
Defined.

(** ** The props do not reach the state *)

Lemma commit_fst p old r :
  fst (commit p old r) =
  if deps_changed old (fst r) then
    match last (messages (fst r)) with
    | Some m => setLastMessage (content m) (fst r)
    | None => fst r
    end
  else fst r.
Proof.
  destruct r as [new effs]. unfold commit. cbn [fst].
  destruct (deps_changed old new); [|reflexivity].
  rewrite <- (completionEffect_state p). now destruct (completionEffect p new).
Qed.

Lemma onClick_fst p wf b st :
  fst (onClick p wf b st) =
  setCallStatus (match b with BtnCall => CONNECTING | BtnDisconnect => FINISHED end) st.
Proof.
  destruct b; [|reflexivity]. cbn [onClick]. unfold handleCall.
  now destruct (is_generate p).
Qed.

Lemma step_same_state p wf p' wf' w w' e :
  ctrl w = ctrl w' /\ mounted w = mounted w' /\ registry w = registry w' ->
  ctrl (fst (step p wf w e)) = ctrl (fst (step p' wf' w' e)) /\
  mounted (fst (step p wf w e)) = mounted (fst (step p' wf' w' e)) /\
  registry (fst (step p wf w e)) = registry (fst (step p' wf' w' e)).
Proof.
  intros (Hc & Hm & Hr). unfold step. destruct e as [b|ev|res|]; cbn [enabled].
  - rewrite <- Hm, <- Hc.
    destruct (mounted w && Button_eqb (callButton (ctrl w)) b); [|now cbn].
    destruct (react_wiring p (onClick p wf b) w) as [-> ->].
    destruct (react_wiring p' (onClick p' wf' b) w') as [-> ->].
    rewrite !react_ctrl, !commit_fst, !onClick_fst, <- Hc. repeat split; assumption.
  - destruct (react_wiring p (emit (registry w) ev) w) as [-> ->].
    destruct (react_wiring p' (emit (registry w') ev) w') as [-> ->].
    rewrite !react_ctrl, !commit_fst, <- Hc, <- Hr. repeat split; assumption.
  - destruct (negb (Nat.eqb (inflight w) 0)), (negb (Nat.eqb (inflight w') 0));
      cbn [fst ctrl mounted registry]; repeat split; assumption.
  - rewrite <- Hm. destruct (mounted w) eqn:Hmw;
      cbn [fst unmount ctrl mounted registry];
      [|repeat split; congruence].
    now rewrite Hc, Hr.
Qed.

(** X7.  The state of a component (status, transcript, speaking flag,
    last message), whether it is mounted, and the registry are decided by
    the events alone: two instances with different props and workflow
    identifiers that receive the same events are in the same state.  The
    props only shape what is sent out. *)
Theorem state_is_decided_by_events p wf p' wf' reg0 es :
  ctrl (fst (session p wf reg0 es)) = ctrl (fst (session p' wf' reg0 es)) /\
  mounted (fst (session p wf reg0 es)) = mounted (fst (session p' wf' reg0 es)) /\
  registry (fst (session p wf reg0 es)) = registry (fst (session p' wf' reg0 es)).
Proof.
  rewrite !session_run, !mount_world. cbn [fst].
  assert (Hrun : forall w w',
    ctrl w = ctrl w' /\ mounted w = mounted w' /\ registry w = registry w' ->
    ctrl (fst (run p wf w es)) = ctrl (fst (run p' wf' w' es)) /\
    mounted (fst (run p wf w es)) = mounted (fst (run p' wf' w' es)) /\
    registry (fst (run p wf w es)) = registry (fst (run p' wf' w' es))).
  { induction es as [|e es IH]; intros w w' H; [exact H|].
    rewrite !run_cons. cbn [fst]. apply IH. now apply step_same_state. }
  apply Hrun. auto.
Qed.

(** * Further properties of the feedback action *)

(** ** The transcript sent to the model *)

Lemma concat_empty_cons (x : string) (l : list string) :
  String.concat "" (x :: l) = x +:+ String.concat "" l.
Proof.
  destruct l as [|y l]; [|reflexivity].
  cbn [String.concat]. now rewrite append_nil_r.
Qed.

Lemma concat_empty_app (l1 l2 : list string) :
  String.concat "" (l1 ++ l2) = String.concat "" l1 +:+ String.concat "" l2.
Proof.
  induction l1 as [|x l1 IH]; [reflexivity|].
  rewrite <- app_comm_cons, !concat_empty_cons, IH.
  now rewrite append_assoc.
Qed.

(** X8.  The transcript is sent to the model one line per utterance, in
    order: the text for two transcripts put end to end is the two texts put
    end to end, the text for no utterance is empty, and the line of an
    utterance is a dash, its role, a colon, its text and a newline. *)
Theorem formattedTranscript_is_line_by_line
    (t1 t2 : list SavedMessage) (sentence : SavedMessage) :
  GeneralAction.formattedTranscript (t1 ++ t2) =
    GeneralAction.formattedTranscript t1 +:+ GeneralAction.formattedTranscript t2
  /\ GeneralAction.formattedTranscript [] = ""
  /\ GeneralAction.formattedTranscript [sentence] =
       "- " +:+ GeneralAction.role_str (role sentence) +:+ ": "
       +:+ content sentence +:+ Js.newline.
Proof.
  unfold GeneralAction.formattedTranscript. rewrite !join_concat.
  split; [|split; reflexivity].
  now rewrite map_app, concat_empty_app.
Qed.

(** ** What a call leaves in the store *)

Lemma doc_absent be v :
  Js.truthy v = false ->
  (if Js.truthy v then GeneralAction.doc v be else GeneralAction.doc None be) =
  Some {| GeneralAction.parent := ["feedback"];
          GeneralAction.id := GeneralAction.autoId be |}.
Proof. now intros ->. Qed.

(** With the feedback identifier left out or a document name, the
    document is one of the collection itself. *)
Lemma doc_absent_or_plain be v feedbackRef :
  absent_or_plain v = true ->
  (if Js.truthy v then GeneralAction.doc v be else GeneralAction.doc None be) =
  Some feedbackRef ->
  GeneralAction.parent feedbackRef = ["feedback"].
Proof.
  intros Hv. destruct (Js.truthy v) eqn:Ht.
  - destruct v as [s|]; [|discriminate Ht].
    assert (Hplain : plain_name s = true).
    { unfold plain_name. cbn in Ht, Hv. rewrite Ht.
      apply negb_true_iff in Ht. rewrite Ht in Hv. exact Hv. }
    rewrite (doc_plain be s Hplain). now intros [= <-].
  - now intros [= <-].
Qed.

(** X10.  After a call that resolves with [success: true] and whose
    feedback identifier was left out or is a document name, the document
    stored under the returned identifier carries the interview and user
    identifiers of the call and the time of the call. *)
Theorem createFeedback_stores_what_it_returns be params db fid :
  absent_or_plain (p_feedbackId params) = true ->
  success (fst (GeneralAction.createFeedback be params db)) = true ->
  r_feedbackId (fst (GeneralAction.createFeedback be params db)) = Some fid ->
  exists feedback,
    snd (GeneralAction.createFeedback be params db) !! fid = Some feedback /\
    GeneralAction.f_interviewId feedback = p_interviewId params /\
    GeneralAction.f_userId feedback = p_userId params /\
    GeneralAction.f_createdAt feedback = GeneralAction.now be.
Proof.
  intros Hplain Hs Hid.
  destruct (createFeedback_cases be params db)
    as [(Hf & _) | (object & feedbackRef & _ & _ & Hdoc & _ & Hid' & Hdb)];
    [congruence|].
  rewrite Hid in Hid'. injection Hid' as ->. rewrite Hdb.
  rewrite decide_True
    by exact (doc_absent_or_plain be _ feedbackRef Hplain Hdoc).
  eexists. split; [apply lookup_insert_eq|]. auto.
Qed.

Lemma createFeedback_stores_what_it_returns_witness :
  absent_or_plain (p_feedbackId sample_params) = true /\
  success (fst (GeneralAction.createFeedback sample_backend sample_params ∅))
  = true /\
  r_feedbackId (fst (GeneralAction.createFeedback sample_backend sample_params ∅))
  = Some "fb1" /\
  exists feedback,
    snd (GeneralAction.createFeedback sample_backend sample_params ∅) !! "fb1"
    = Some feedback /\
    GeneralAction.f_interviewId feedback = Some "i1".
Proof.
  split; [reflexivity|]. split; [reflexivity|]. split; [reflexivity|].
  destruct (createFeedback_stores_what_it_returns sample_backend sample_params
              ∅ "fb1" eq_refl eq_refl eq_refl) as (feedback & H1 & H2 & _).
  exists feedback. split; assumption.
Defined.

(** X11.  A call without a usable feedback identifier (none, or the empty
    string) that resolves with [success: true] returns the identifier the
    store generated; if that identifier is new to the collection, the
    collection has one document more and every document it had is
    untouched. *)
Theorem createFeedback_without_id_adds_a_document be params db :
  Js.truthy (p_feedbackId params) = false ->
  success (fst (GeneralAction.createFeedback be params db)) = true ->
  db !! GeneralAction.autoId be = None ->
  r_feedbackId (fst (GeneralAction.createFeedback be params db))
    = Some (GeneralAction.autoId be) /\
  size (snd (GeneralAction.createFeedback be params db)) = S (size db) /\
  (forall k feedback, db !! k = Some feedback ->
     snd (GeneralAction.createFeedback be params db) !! k = Some feedback).
Proof.
  intros Ht Hs Hfresh.
  destruct (createFeedback_cases be params db)
    as [(Hf & _) | (object & feedbackRef & _ & _ & Hdoc & _ & Hid & Hdb)];
    [congruence|].
  rewrite (doc_absent be _ Ht) in Hdoc. injection Hdoc as <-.
  cbn [GeneralAction.id GeneralAction.parent] in Hid, Hdb.
  rewrite decide_True in Hdb by reflexivity.
  rewrite Hid, Hdb.
  split; [reflexivity|]. split.
  - now apply map_size_insert_None.
  - intros k feedback Hk. rewrite lookup_insert_ne; [exact Hk|].
    intros <-. congruence.
Qed.

Lemma createFeedback_without_id_adds_a_document_witness :
  Js.truthy (p_feedbackId sample_params_new) = false /\
  r_feedbackId (fst (GeneralAction.createFeedback sample_backend
                       sample_params_new ∅)) = Some "auto1".
Proof.
  split; [reflexivity|].
  apply (createFeedback_without_id_adds_a_document sample_backend
           sample_params_new ∅); reflexivity.
Defined.

(** X12.  Feedback regenerated under the same feedback identifier
    replaces the earlier feedback: after a second call that resolves with
    [success: true], the collection is what that call alone would have
    left, whatever the first call did. *)
Theorem createFeedback_again_overwrites be1 be2 params1 params2 db fid :
  p_feedbackId params1 = Some fid ->
  p_feedbackId params2 = Some fid ->
  fid <> "" ->
  success (fst (GeneralAction.createFeedback be2 params2 db)) = true ->
  snd (GeneralAction.createFeedback be2 params2
         (snd (GeneralAction.createFeedback be1 params1 db)))
  = snd (GeneralAction.createFeedback be2 params2 db).
Proof.
  intros H1 H2 Hne Hs.
  assert (Ht : Js.truthy (Some fid) = true)
    by (cbn; now apply negb_true_iff, String.eqb_neq).
  destruct (createFeedback_cases be2 params2 db)
    as [(Hf & _) | (object2 & ref2 & Hg2 & Hok2 & Hdoc2 & _ & _ & Hdb2)];
    [congruence|].
  rewrite Hdb2.
  assert (Hsecond : forall db0,
    snd (GeneralAction.createFeedback be2 params2 db0) =
    if decide (GeneralAction.parent ref2 = ["feedback"])
    then <[GeneralAction.id ref2 := feedback_of be2 params2 object2]> db0
    else db0).
  { intros db0. unfold GeneralAction.createFeedback.
    rewrite Hg2, Hdoc2, Hok2. reflexivity. }
  rewrite Hsecond.
  destruct (createFeedback_cases be1 params1 db)
    as [(_ & _ & ->) | (object1 & ref1 & _ & _ & Hdoc1 & _ & _ & ->)];
    [reflexivity|].
  assert (Href : ref1 = ref2).
  { rewrite H1, Ht in Hdoc1. rewrite H2, Ht in Hdoc2.
    unfold GeneralAction.doc in Hdoc1, Hdoc2. congruence. }
  subst ref1.
  destruct (decide (GeneralAction.parent ref2 = ["feedback"])); [|reflexivity].
  apply insert_insert_eq.
Qed.

Lemma createFeedback_again_overwrites_witness :
  p_feedbackId sample_params = Some "fb1" /\ "fb1" <> "" /\
  snd (GeneralAction.createFeedback sample_backend sample_params
         (snd (GeneralAction.createFeedback sample_backend sample_params ∅)))
  = snd (GeneralAction.createFeedback sample_backend sample_params ∅).
Proof.
  split; [reflexivity|]. split; [discriminate|].
  apply (createFeedback_again_overwrites sample_backend sample_backend
           sample_params sample_params ∅ "fb1");
    [reflexivity | reflexivity | discriminate | reflexivity].
Defined.

(** ** Reading feedback back *)

Lemma first_of_take_1 {A} (l : list A) :
  match take 1 l with [] => None | x :: _ => Some x end = head l.
Proof. now destruct l. Qed.

Lemma getFeedbackByInterviewId_head eng interviewId userId db :
  Js.truthy interviewId = true -> Js.truthy userId = true ->
  GeneralAction.getFeedbackByInterviewId eng interviewId userId db =
  head (GeneralAction.feedback_docs eng
          (filter (fun d => GeneralAction.f_interviewId d.2 = interviewId
                            /\ GeneralAction.f_userId d.2 = userId)
                  (map_to_list db))).
Proof.
  intros Hi Hu. unfold GeneralAction.getFeedbackByInterviewId.
  rewrite Hi, Hu. cbn [negb orb]. apply first_of_take_1.
Qed.

Lemma getFeedbackByInterviewId_sound eng interviewId userId db k f :
  Engine_ok eng ->
  GeneralAction.getFeedbackByInterviewId eng interviewId userId db = Some (k, f) ->
  db !! k = Some f /\
  GeneralAction.f_interviewId f = interviewId /\
  GeneralAction.f_userId f = userId.
Proof.
  intros [Hok _] Hr.
  destruct (Js.truthy interviewId) eqn:Hi;
    [|unfold GeneralAction.getFeedbackByInterviewId in Hr;
      rewrite Hi in Hr; discriminate Hr].
  destruct (Js.truthy userId) eqn:Hu;
    [|unfold GeneralAction.getFeedbackByInterviewId in Hr;
      rewrite Hi, Hu in Hr; discriminate Hr].
  rewrite getFeedbackByInterviewId_head in Hr by assumption.
  apply head_Some_elem_of in Hr. rewrite Hok in Hr.
  apply list_elem_of_filter in Hr as [[H1 H2] Hin].
  apply elem_of_map_to_list in Hin. auto.
Qed.

Lemma getFeedbackByInterviewId_none eng interviewId userId db :
  Engine_ok eng ->
  Js.truthy interviewId = true -> Js.truthy userId = true ->
  GeneralAction.getFeedbackByInterviewId eng interviewId userId db = None <->
  forall k f, db !! k = Some f ->
    ~ (GeneralAction.f_interviewId f = interviewId
       /\ GeneralAction.f_userId f = userId).
Proof.
  intros [Hok _] Hi Hu. rewrite getFeedbackByInterviewId_head by assumption.
  rewrite head_None. split.
  - intros Hnil k f Hk Hmatch.
    pose proof (Hok (filter (fun d => GeneralAction.f_interviewId d.2 = interviewId
                                     /\ GeneralAction.f_userId d.2 = userId)
                            (map_to_list db))) as Hfilter.
    rewrite Hnil in Hfilter. apply Permutation_nil in Hfilter.
    apply (filter_nil_not_elem_of _ _ (k, f) Hfilter); [exact Hmatch|].
    now apply elem_of_map_to_list.
  - intros Hno.
    destruct (GeneralAction.feedback_docs eng _) as [|[k f] l] eqn:Hl;
      [reflexivity|].
    assert (Hin : (k, f) ∈ GeneralAction.feedback_docs eng
              (filter (fun d => GeneralAction.f_interviewId d.2 = interviewId
                                /\ GeneralAction.f_userId d.2 = userId)
                      (map_to_list db)))
      by (rewrite Hl; left).
    rewrite Hok in Hin. apply list_elem_of_filter in Hin as [Hmatch Hin].
    apply elem_of_map_to_list in Hin. now destruct (Hno k f Hin).
Qed.

(** X13.  Feedback is looked up only when both the interview and the user
    identifier are given (not missing, not empty).  What is found is a
    stored document that carries both identifiers, under its document name;
    and nothing is found exactly when no stored document carries both. *)
Theorem getFeedbackByInterviewId_finds_a_match eng interviewId userId db :
  Engine_ok eng ->
  let r := GeneralAction.getFeedbackByInterviewId eng interviewId userId db in
  (Js.truthy interviewId = false \/ Js.truthy userId = false -> r = None) /\
  (forall k f, r = Some (k, f) ->
     db !! k = Some f /\
     GeneralAction.f_interviewId f = interviewId /\
     GeneralAction.f_userId f = userId) /\
  (Js.truthy interviewId = true -> Js.truthy userId = true ->
   (r = None <->
    forall k f, db !! k = Some f ->
      ~ (GeneralAction.f_interviewId f = interviewId
         /\ GeneralAction.f_userId f = userId))).
Proof.
  intros Hok r. subst r. split; [|split].
  - unfold GeneralAction.getFeedbackByInterviewId.
    intros [-> | ->]; [reflexivity|]. now rewrite orb_true_r.
  - intros k f. now apply getFeedbackByInterviewId_sound.
  - now apply getFeedbackByInterviewId_none.
Qed.

Lemma getFeedbackByInterviewId_finds_a_match_witness :
  Engine_ok sample_engine /\
  GeneralAction.getFeedbackByInterviewId sample_engine None (Some "u1")
    (snd (GeneralAction.createFeedback sample_backend sample_params ∅)) = None.
Proof.
  split; [split; intros l; reflexivity|].
  exact (proj1 (getFeedbackByInterviewId_finds_a_match sample_engine None
                  (Some "u1")
                  (snd (GeneralAction.createFeedback sample_backend sample_params ∅))
                  (conj (fun l => Permutation_refl l) (fun l => Permutation_refl l)))
               (or_introl eq_refl)).
Defined.

(** X14.  Feedback written by [createFeedback] for an interview and a user
    (both identifiers given), with the feedback identifier left out or a
    document name, is found by [getFeedbackByInterviewId] for that interview
    and user; and if no feedback of theirs was stored before, what is found
    is the document just written, under the identifier the call returned.
    Feedback written under a path into a sub-collection is not found: the
    collection itself is left as it was. *)
Theorem created_feedback_is_found eng be params db i u :
  Engine_ok eng ->
  p_interviewId params = Some i -> i <> "" ->
  p_userId params = Some u -> u <> "" ->
  success (fst (GeneralAction.createFeedback be params db)) = true ->
  let db' := snd (GeneralAction.createFeedback be params db) in
  let found := GeneralAction.getFeedbackByInterviewId eng (Some i) (Some u) db' in
  (absent_or_plain (p_feedbackId params) = true ->
   is_Some found /\
   ((forall k f, db !! k = Some f ->
       ~ (GeneralAction.f_interviewId f = Some i
          /\ GeneralAction.f_userId f = Some u)) ->
    exists fid feedback,
      r_feedbackId (fst (GeneralAction.createFeedback be params db)) = Some fid /\
      found = Some (fid, feedback) /\ db' !! fid = Some feedback)) /\
  (forall feedbackRef,
     GeneralAction.doc (p_feedbackId params) be = Some feedbackRef ->
     Js.truthy (p_feedbackId params) = true ->
     GeneralAction.parent feedbackRef <> ["feedback"] ->
     db' = db).
Proof.
  intros Hok Hi Hine Hu Hune Hs db' found.
  assert (Hti : Js.truthy (Some i) = true)
    by (cbn; now apply negb_true_iff, String.eqb_neq).
  assert (Htu : Js.truthy (Some u) = true)
    by (cbn; now apply negb_true_iff, String.eqb_neq).
  destruct (createFeedback_cases be params db)
    as [(Hf & _) | (object & feedbackRef & _ & _ & Hdoc & _ & Hid & Hdb)];
    [congruence|].
  fold db' in Hdb. split.
  - intros Hplain.
    rewrite decide_True in Hdb
      by exact (doc_absent_or_plain be _ feedbackRef Hplain Hdoc).
    set (fid := GeneralAction.id feedbackRef) in *.
    subst found.
    assert (Hsome : is_Some (GeneralAction.getFeedbackByInterviewId eng
                               (Some i) (Some u) db')).
    { destruct (GeneralAction.getFeedbackByInterviewId eng (Some i) (Some u) db')
        as [x|] eqn:Hfound; [eauto|]. exfalso.
      pose proof (proj1 (getFeedbackByInterviewId_none eng (Some i) (Some u) db'
                           Hok Hti Htu) Hfound) as Hno.
      eapply (Hno fid).
      - rewrite Hdb. apply lookup_insert_eq.
      - cbn. now rewrite Hi, Hu. }
    split; [exact Hsome|]. intros Hnone.
    destruct Hsome as [[k f] Hfound].
    destruct (getFeedbackByInterviewId_sound eng (Some i) (Some u) db' k f Hok Hfound)
      as (Hk & Hmi & Hmu).
    assert (Hkf : k = fid).
    { destruct (decide (k = fid)) as [|Hne]; [assumption|]. exfalso.
      rewrite Hdb, lookup_insert_ne in Hk by congruence.
      now apply (Hnone k f Hk). }
    subst k. exists fid, f. auto.
  - intros ref Href Ht Hnested. rewrite Ht, Href in Hdoc.
    injection Hdoc as <-. rewrite Hdb. now rewrite decide_False.
Qed.

Lemma created_feedback_is_found_witness :
  Engine_ok sample_engine /\
  is_Some (GeneralAction.getFeedbackByInterviewId sample_engine
             (Some "i1") (Some "u1")
             (snd (GeneralAction.createFeedback sample_backend sample_params ∅))).
Proof.
  split; [split; intros l; reflexivity|].
  apply (created_feedback_is_found sample_engine sample_backend sample_params
           ∅ "i1" "u1");
    [split; intros l; reflexivity | reflexivity | discriminate
    | reflexivity | discriminate | reflexivity | reflexivity].
Defined.

(** ** Listing interviews *)

#[local] Instance createdAt_desc_transitive :
  Transitive GeneralAction.createdAt_desc.
Proof.
  intros a b c Hab Hbc. unfold GeneralAction.createdAt_desc in *.
  now transitivity (GeneralAction.d_createdAt b.2).
Qed.

#[local] Instance createdAt_desc_total : Total GeneralAction.createdAt_desc.
Proof.
  intros a b. unfold GeneralAction.createdAt_desc.
  destruct (total String.le (GeneralAction.d_createdAt a.2)
              (GeneralAction.d_createdAt b.2)); auto.
Qed.

Lemma orderBy_createdAt_desc_perm docs :
  GeneralAction.orderBy_createdAt_desc docs ≡ₚ docs.
Proof. apply merge_sort_Permutation. Qed.

Lemma orderBy_createdAt_desc_sorted docs :
  StronglySorted GeneralAction.createdAt_desc
    (GeneralAction.orderBy_createdAt_desc docs).
Proof. apply (StronglySorted_merge_sort _). Qed.

Lemma with_id_sorted docs :
  StronglySorted GeneralAction.createdAt_desc docs ->
  StronglySorted newer_first (GeneralAction.with_id <$> docs).
Proof. apply StronglySorted_fmap. now intros a b. Qed.

Lemma take_sorted {A} (R : relation A) n (l : list A) :
  StronglySorted R l -> StronglySorted R (take n l).
Proof.
  intros H. rewrite <- (take_drop n l) in H.
  now apply StronglySorted_app_1_l in H.
Qed.

(** A listed interview is a stored document that passed the filter. *)
Lemma listed_is_stored eng (P : string * GeneralAction.InterviewData -> Prop)
    `{!forall d, Decision (P d)} n db iv :
  Engine_ok eng ->
  iv ∈ GeneralAction.with_id <$>
         take n (GeneralAction.orderBy_createdAt_desc
                   (GeneralAction.interview_docs eng (filter P (map_to_list db)))) ->
  exists k,
    P (k, GeneralAction.iv_data iv) /\
    db !! k = Some (GeneralAction.iv_data iv) /\
    iv = GeneralAction.with_id (k, GeneralAction.iv_data iv).
Proof.
  intros [_ Hok] Hin.
  apply list_elem_of_fmap in Hin as ([k d] & -> & Hin).
  apply subseteq_take in Hin.
  rewrite orderBy_createdAt_desc_perm, Hok in Hin.
  apply list_elem_of_filter in Hin as [HP Hin].
  apply elem_of_map_to_list in Hin. exists k. cbn. auto.
Qed.

Lemma getLatestInterviews_unfold eng userId limit db :
  Js.truthy userId = true ->
  GeneralAction.getLatestInterviews eng userId limit db =
  GeneralAction.with_id <$>
    take (default 20 limit)
      (GeneralAction.orderBy_createdAt_desc
         (GeneralAction.interview_docs eng
            (filter (fun d => GeneralAction.d_finalized d.2 = true
                              /\ Some (GeneralAction.d_userId d.2) <> userId)
                    (map_to_list db)))).
Proof. intros H. unfold GeneralAction.getLatestInterviews. now rewrite H. Qed.

Lemma getInterviewsByUserId_unfold eng userId db :
  Js.truthy userId = true ->
  GeneralAction.getInterviewsByUserId eng userId db =
  GeneralAction.with_id <$>
    GeneralAction.orderBy_createdAt_desc
      (GeneralAction.interview_docs eng
         (filter (fun d => Some (GeneralAction.d_userId d.2) = userId)
                 (map_to_list db))).
Proof. intros H. unfold GeneralAction.getInterviewsByUserId. now rewrite H. Qed.

Lemma latest_is_stored eng userId limit db iv :
  Engine_ok eng ->
  iv ∈ GeneralAction.getLatestInterviews eng userId limit db ->
  exists k,
    (GeneralAction.d_finalized (GeneralAction.iv_data iv) = true /\
     Some (GeneralAction.d_userId (GeneralAction.iv_data iv)) <> userId) /\
    db !! k = Some (GeneralAction.iv_data iv) /\
    iv = GeneralAction.with_id (k, GeneralAction.iv_data iv).
Proof.
  intros Hok Hin. destruct (Js.truthy userId) eqn:Ht.
  - rewrite getLatestInterviews_unfold in Hin by exact Ht.
    apply (listed_is_stored eng _ _ db iv Hok) in Hin. exact Hin.
  - unfold GeneralAction.getLatestInterviews in Hin. rewrite Ht in Hin.
    cbn in Hin. now apply elem_of_nil in Hin.
Qed.

Lemma own_is_stored eng userId db iv :
  Engine_ok eng ->
  iv ∈ GeneralAction.getInterviewsByUserId eng userId db ->
  exists k,
    Some (GeneralAction.d_userId (GeneralAction.iv_data iv)) = userId /\
    db !! k = Some (GeneralAction.iv_data iv) /\
    iv = GeneralAction.with_id (k, GeneralAction.iv_data iv).
Proof.
  intros Hok Hin. destruct (Js.truthy userId) eqn:Ht.
  - rewrite getInterviewsByUserId_unfold in Hin by exact Ht.
    rewrite <- (take_ge (GeneralAction.orderBy_createdAt_desc _)
                  (length (GeneralAction.orderBy_createdAt_desc
                     (GeneralAction.interview_docs eng
                        (filter (fun d => Some (GeneralAction.d_userId d.2) = userId)
                                (map_to_list db)))))) in Hin by reflexivity.
    apply (listed_is_stored eng _ _ db iv Hok) in Hin. exact Hin.
  - unfold GeneralAction.getInterviewsByUserId in Hin. rewrite Ht in Hin.
    cbn in Hin. now apply elem_of_nil in Hin.
Qed.

(** X15.  The feed of latest interviews is empty when no user identifier
    is given.  Otherwise every interview in it is a stored document that is
    finalized and belongs to another user; the feed holds as many of those
    as there are, up to the limit (20 when none is given); and it lists
    them most recent first. *)
Theorem getLatestInterviews_lists_others_finalized eng userId limit db :
  Engine_ok eng ->
  let r := GeneralAction.getLatestInterviews eng userId limit db in
  (Js.truthy userId = false -> r = []) /\
  (forall iv, iv ∈ r ->
     GeneralAction.d_finalized (GeneralAction.iv_data iv) = true /\
     Some (GeneralAction.d_userId (GeneralAction.iv_data iv)) <> userId /\
     exists k, db !! k = Some (GeneralAction.iv_data iv)) /\
  (Js.truthy userId = true ->
   length r =
   min (default 20 limit)
       (length (filter (fun d => GeneralAction.d_finalized d.2 = true
                                 /\ Some (GeneralAction.d_userId d.2) <> userId)
                       (map_to_list db)))) /\
  StronglySorted newer_first r.
Proof.
  intros Hok r. subst r. split; [|split; [|split]].
  - intros Ht. unfold GeneralAction.getLatestInterviews. now rewrite Ht.
  - intros iv Hin.
    destruct (latest_is_stored eng userId limit db iv Hok Hin)
      as (k & [Hfin Hother] & Hk & _). eauto.
  - intros Ht. rewrite getLatestInterviews_unfold by exact Ht.
    rewrite length_fmap, length_take.
    destruct Hok as [_ Hok].
    now rewrite orderBy_createdAt_desc_perm, Hok.
  - destruct (Js.truthy userId) eqn:Ht.
    + rewrite getLatestInterviews_unfold by exact Ht.
      apply with_id_sorted, take_sorted, orderBy_createdAt_desc_sorted.
    + unfold GeneralAction.getLatestInterviews. rewrite Ht. constructor.
Qed.

Lemma getLatestInterviews_lists_others_finalized_witness :
  Engine_ok sample_engine /\
  StronglySorted newer_first
    (GeneralAction.getLatestInterviews sample_engine (Some "user1") (Some 1)
       sample_interviews).
Proof.
  split; [split; intros l; reflexivity|].
  apply (getLatestInterviews_lists_others_finalized sample_engine
           (Some "user1") (Some 1) sample_interviews).
  split; intros l; reflexivity.
Defined.

(** X16.  The list of a user's interviews is empty when no user identifier
    is given.  Otherwise it holds exactly the stored interviews of that
    user: each of them, nothing else, as many as there are; and it lists
    them most recent first. *)
Theorem getInterviewsByUserId_lists_own eng userId db :
  Engine_ok eng ->
  let r := GeneralAction.getInterviewsByUserId eng userId db in
  (Js.truthy userId = false -> r = []) /\
  (forall iv, iv ∈ r ->
     Some (GeneralAction.d_userId (GeneralAction.iv_data iv)) = userId /\
     exists k, db !! k = Some (GeneralAction.iv_data iv)) /\
  (Js.truthy userId = true ->
   (forall k d, db !! k = Some d -> Some (GeneralAction.d_userId d) = userId ->
      GeneralAction.with_id (k, d) ∈ r) /\
   length r =
   length (filter (fun d => Some (GeneralAction.d_userId d.2) = userId)
                  (map_to_list db))) /\
  StronglySorted newer_first r.
Proof.
  intros Hok r. subst r. split; [|split; [|split]].
  - intros Ht. unfold GeneralAction.getInterviewsByUserId. now rewrite Ht.
  - intros iv Hin.
    destruct (own_is_stored eng userId db iv Hok Hin) as (k & Hu & Hk & _).
    eauto.
  - intros Ht. rewrite getInterviewsByUserId_unfold by exact Ht.
    destruct Hok as [_ Hok]. split.
    + intros k d Hk Hu. apply list_elem_of_fmap_2.
      rewrite orderBy_createdAt_desc_perm, Hok.
      apply list_elem_of_filter. split; [exact Hu|].
      now apply elem_of_map_to_list.
    + now rewrite length_fmap, orderBy_createdAt_desc_perm, Hok.
  - destruct (Js.truthy userId) eqn:Ht.
    + rewrite getInterviewsByUserId_unfold by exact Ht.
      apply with_id_sorted, orderBy_createdAt_desc_sorted.
    + unfold GeneralAction.getInterviewsByUserId. rewrite Ht. constructor.
Qed.

Lemma getInterviewsByUserId_lists_own_witness :
  Engine_ok sample_engine /\
  StronglySorted newer_first
    (GeneralAction.getInterviewsByUserId sample_engine (Some "user1")
       sample_interviews).
Proof.
  split; [split; intros l; reflexivity|].
  apply (getInterviewsByUserId_lists_own sample_engine (Some "user1")
           sample_interviews).
  split; intros l; reflexivity.
Defined.

(** X17.  No interview is both in a user's own list and in that user's
    feed of latest interviews, whatever the limit. *)
Theorem own_interviews_are_not_in_the_feed eng userId limit db iv :
  Engine_ok eng ->
  iv ∈ GeneralAction.getInterviewsByUserId eng userId db ->
  iv ∉ GeneralAction.getLatestInterviews eng userId limit db.
Proof.
  intros Hok Hown Hlatest.
  destruct (own_is_stored eng userId db iv Hok Hown) as (_ & Hu & _).
  destruct (latest_is_stored eng userId limit db iv Hok Hlatest)
    as (_ & [_ Hother] & _).
  contradiction.
Qed.

(** X18.  When the stored interviews have no [id] field of their own, the
    identifier of every listed interview, in a user's own list or in the
    feed, is its document name: [getInterviewById] with that identifier
    returns that interview's document. *)
Theorem listed_interviews_can_be_fetched eng userId limit db iv :
  Engine_ok eng ->
  (forall k d, db !! k = Some d -> GeneralAction.d_id d = None) ->
  iv ∈ GeneralAction.getInterviewsByUserId eng userId db \/
  iv ∈ GeneralAction.getLatestInterviews eng userId limit db ->
  GeneralAction.getInterviewById (GeneralAction.iv_id iv) db
  = Some (GeneralAction.iv_data iv).
Proof.
  intros Hok Hnoid Hin.
  assert (Hstored : exists k, db !! k = Some (GeneralAction.iv_data iv) /\
                    iv = GeneralAction.with_id (k, GeneralAction.iv_data iv)).
  { destruct Hin as [Hin|Hin].
    - destruct (own_is_stored eng userId db iv Hok Hin) as (k & _ & Hk & Hiv).
      eauto.
    - destruct (latest_is_stored eng userId limit db iv Hok Hin)
        as (k & _ & Hk & Hiv).
      eauto. }
  destruct Hstored as (k & Hk & Hiv).
  unfold GeneralAction.getInterviewById. rewrite Hiv.
  unfold GeneralAction.with_id. cbn [GeneralAction.iv_id GeneralAction.iv_data fst snd].
  now rewrite (Hnoid k _ Hk).
Qed.

Lemma sample_interviews_have_no_id k d :
  sample_interviews !! k = Some d -> GeneralAction.d_id d = None.
Proof.
  unfold sample_interviews. intros H.
  repeat (apply lookup_insert_Some in H as [[_ <-]|[_ H]]; [reflexivity|]).
  now rewrite lookup_empty in H.
Qed.

Lemma sample_interview_is_listed :
  sample_first_interview ∈
    GeneralAction.getInterviewsByUserId sample_engine (Some "user1")
      sample_interviews.
Proof.
  rewrite getInterviewsByUserId_unfold by reflexivity.
  apply (list_elem_of_fmap_2 GeneralAction.with_id _
           ("1", sample_interview "user1" "Frontend Developer"
                   "2024-03-15T10:00:00Z" true)).
  rewrite orderBy_createdAt_desc_perm. cbn [GeneralAction.interview_docs sample_engine].
  apply list_elem_of_filter. split; [reflexivity|].
  apply elem_of_map_to_list. reflexivity.
Qed.

Lemma own_interviews_are_not_in_the_feed_witness :
  Engine_ok sample_engine /\
  sample_first_interview ∈
    GeneralAction.getInterviewsByUserId sample_engine (Some "user1")
      sample_interviews /\
  sample_first_interview ∉
    GeneralAction.getLatestInterviews sample_engine (Some "user1") None
      sample_interviews.
Proof.
  split; [split; intros l; reflexivity|].
  split; [exact sample_interview_is_listed|].
  apply (own_interviews_are_not_in_the_feed sample_engine (Some "user1") None
           sample_interviews sample_first_interview).
  - split; intros l; reflexivity.
  - exact sample_interview_is_listed.
Defined.

Lemma listed_interviews_can_be_fetched_witness :
  Engine_ok sample_engine /\
  GeneralAction.getInterviewById "1" sample_interviews =
  Some (sample_interview "user1" "Frontend Developer" "2024-03-15T10:00:00Z" true).
Proof.
  split; [split; intros l; reflexivity|].
  apply (listed_interviews_can_be_fetched sample_engine (Some "user1") None
           sample_interviews sample_first_interview).
  - split; intros l; reflexivity.
  - exact sample_interviews_have_no_id.
  - left. exact sample_interview_is_listed.
Defined.

(** * Events that share a render *)

Lemma andThen_fst (h1 h2 : Handler) st :
  fst (andThen h1 h2 st) = fst (h2 (fst (h1 st))).
Proof.
  unfold andThen. destruct (h1 st) as [st1 e1]. cbn [fst].
  now destruct (h2 st1).
Qed.


Lemma emit_all_single reg ev st : emit_all reg [ev] st = emit reg ev st.
Proof. cbn [emit_all]. apply andThen_skip_r. Qed.

(** A render for one event is that event rendered by itself. *)
Lemma step_in_batch_single p wf w ev :
  step_in p wf w (Batch [ev]) = step_in p wf w (Single (Transport ev)).
Proof.
  cbn [step_in]. unfold step. cbn [enabled].
  apply react_ext, emit_all_single.
Qed.


Lemma emit_all_foreign reg evs : forall st,
  foreign_only reg = true -> emit_all reg evs st = (st, []).
Proof.
  induction evs as [|ev evs IH]; intros st Hf; [reflexivity|].
  cbn [emit_all]. unfold andThen.
  rewrite (emit_foreign reg ev st Hf), (IH st Hf). reflexivity.
Qed.

Lemma on_event_ref ev st :
  messagesRef (fst (on_event ev st)) =
  messagesRef st + length (utterances [Transport ev]).
Proof.
  destruct ev as [| |m| | |x]; cbn [on_event utterances length];
    try (cbn; lia).
  unfold onMessage. destruct (is_final_transcript m); cbn; lia.
Qed.

Lemma on_event_lastMessage ev st :
  lastMessage (fst (on_event ev st)) = lastMessage st.
Proof.
  destruct ev as [| |m| | |x]; try reflexivity.
  cbn [on_event]. unfold onMessage. now destruct (is_final_transcript m).
Qed.


(** What the listeners of a mounted component make of the events of one
    render. *)
Lemma emit_all_live reg0 evs : forall st,
  foreign_only reg0 = true ->
  let st' := fst (emit_all (subscribe reg0) evs st) in
  messages st' = messages st ++ utterances (map Transport evs) /\
  messagesRef st' = messagesRef st + length (utterances (map Transport evs)) /\
  lastMessage st' = lastMessage st /\
  (forallb late_event (map Transport evs) = true ->
   callStatus st = FINISHED -> callStatus st' = FINISHED).
Proof.
  induction evs as [|ev evs IH]; intros st Hf; cbv zeta.
  - cbn. rewrite app_nil_r, Nat.add_0_r. auto.
  - cbn [emit_all map]. rewrite andThen_fst, (emit_subscribe reg0 ev st Hf).
    destruct (IH (fst (on_event ev st)) Hf) as (Hm & Hr & Hl & Hs).
    rewrite Hm, Hr, Hl, on_event_messages, on_event_ref, on_event_lastMessage.
    rewrite (utterances_cons (Transport ev) (map Transport evs)), length_app.
    rewrite <- app_assoc. repeat split; try reflexivity; try lia.
    cbn [forallb]. intros Hlate Hfin.
    apply andb_true_iff in Hlate as [Hev Hlate]. apply Hs; [exact Hlate|].
    rewrite on_event_status, Hfin.
    destruct ev; try reflexivity; discriminate Hev.
Qed.

Lemma step_in_wired p wf w i : Wired w -> Wired (fst (step_in p wf w i)).
Proof.
  intros Hw. destruct i as [e|evs]; [now apply step_wired|].
  cbn [step_in]. destruct (react_wiring p (emit_all (registry w) evs) w) as [Hm Hr].
  unfold Wired, Live, Dead in *. now rewrite Hm, Hr.
Qed.

Lemma run_in_cons p wf w i ins :
  run_in p wf w (i :: ins) =
  (fst (run_in p wf (fst (step_in p wf w i)) ins),
   snd (step_in p wf w i) ++ snd (run_in p wf (fst (step_in p wf w i)) ins)).
Proof.
  cbn [run_in]. destruct (step_in p wf w i) as [w1 effs1]. cbn [fst snd].
  now destruct (run_in p wf w1 ins).
Qed.

Lemma session_in_run p wf reg0 ins :
  session_in p wf reg0 ins = run_in p wf (fst (mount p reg0)) ins.
Proof.
  unfold session_in. rewrite mount_world. cbn [fst].
  now destruct (run_in p wf _ ins).
Qed.

Lemma session_in_wired p wf reg0 ins :
  foreign_only reg0 = true -> Wired (fst (session_in p wf reg0 ins)).
Proof.
  intros Hf. rewrite session_in_run.
  assert (H : forall w, Wired w -> Wired (fst (run_in p wf w ins))).
  { induction ins as [|i ins IH]; intros w Hw; [exact Hw|].
    rewrite run_in_cons. cbn [fst]. apply IH. now apply step_in_wired. }
  apply H. left. now apply mount_live.
Qed.

Lemma step_in_dead p wf w i :
  Dead w -> ctrl (fst (step_in p wf w i)) = ctrl w.
Proof.
  intros Hw. destruct i as [e|evs]; [now apply step_ctrl_dead|].
  cbn [step_in]. destruct Hw as [_ Hf].
  rewrite (react_ext p _ skip w (emit_all_foreign _ evs (ctrl w) Hf)).
  now rewrite react_skip.
Qed.










(** ** The transcript panel *)

Lemma step_in_panel p wf w i :
  Wired w -> panel_in_step (ctrl w) ->
  panel_in_step (ctrl (fst (step_in p wf w i))).
Proof.
  intros Hw Hp. destruct i as [e|evs]; [now apply step_panel|].
  destruct Hw as [Hw|Hw]; [|now rewrite step_in_dead].
  cbn [step_in]. rewrite react_ctrl.
  destruct Hw as [_ (reg0 & Hf & Hreg)].
  pose proof (emit_all_live reg0 evs (ctrl w) Hf) as Hfacts.
  cbv zeta in Hfacts. rewrite <- Hreg in Hfacts.
  destruct Hfacts as (Hm & Href & Hl & _).
  destruct (emit_all (registry w) evs (ctrl w)) as [new effs].
  cbn [fst] in *. apply commit_panel.
  destruct (utterances (map Transport evs)) as [|u us] eqn:Hu.
  - left. unfold panel_in_step in *. rewrite Hl, Hm, app_nil_r. exact Hp.
  - right. split.
    + unfold deps_changed. rewrite Href. cbn [length].
      assert (Hne : Nat.eqb (messagesRef (ctrl w))
                      (messagesRef (ctrl w) + S (length us)) = false)
        by (apply Nat.eqb_neq; lia).
      now rewrite Hne.
    + rewrite Hm. now destruct (messages (ctrl w)).
Qed.

Lemma session_in_panel p wf reg0 ins :
  foreign_only reg0 = true ->
  panel_in_step (ctrl (fst (session_in p wf reg0 ins))).
Proof.
  intros Hf. rewrite session_in_run.
  assert (Hinv : forall w, Wired w -> panel_in_step (ctrl w) ->
                 panel_in_step (ctrl (fst (run_in p wf w ins)))).
  { induction ins as [|i ins IH]; intros w Hw Hp; [exact Hp|].
    rewrite run_in_cons. cbn [fst].
    apply IH; [now apply step_in_wired | now apply step_in_panel]. }
  apply Hinv; [left; now apply mount_live | reflexivity].
Qed.

Lemma panel_of_state p st :
  panel_in_step st ->
  v_transcript (render p st) = content <$> last (messages st).
Proof.
  unfold panel_in_step, render. cbn [v_transcript]. intros ->.
  destruct (messages st) as [|m ms] eqn:Hm; [reflexivity|].
  cbn [length Nat.ltb Nat.leb].
  destruct (last (m :: ms)) as [x|] eqn:Hl; [reflexivity|].
  now apply last_None in Hl.
Qed.

(** X4.  The transcript panel follows the transcript with a delay of one
    render.  Once the second effect of an input has run, the panel is on
    screen exactly when the transcript is not empty and shows the text of
    the latest utterance.  The render that comes first after final
    transcripts were delivered to a mounted component, before that effect
    has run, has the panel on screen with the text from before: the
    utterance that was the latest until then, or the empty string if there
    was none. *)
Theorem transcript_panel_shows_latest_utterance p wf reg0 ins evs :
  foreign_only reg0 = true ->
  let w := fst (session_in p wf reg0 ins) in
  let settled := ctrl (fst (step_in p wf w (Batch evs))) in
  v_transcript (render p (ctrl w)) = content <$> last (messages (ctrl w)) /\
  (mounted w = true -> utterances (map Transport evs) <> [] ->
   v_transcript (render p (first_render p wf w (Batch evs))) =
     Some (match last (messages (ctrl w)) with
           | Some m => content m
           | None => ""
           end) /\
   v_transcript (render p settled) =
     content <$> last (utterances (map Transport evs))).
Proof.
  intros Hf w settled.
  pose proof (session_in_wired p wf reg0 ins Hf) as Hw. fold w in Hw.
  pose proof (session_in_panel p wf reg0 ins Hf) as Hp. fold w in Hp.
  split; [now apply panel_of_state|].
  intros Hm Hu.
  assert (Hlive : Live w).
  { destruct Hw as [Hw|[Hd _]]; [exact Hw | congruence]. }
  destruct Hlive as [_ (reg1 & Hf1 & Hreg)].
  pose proof (emit_all_live reg1 evs (ctrl w) Hf1) as Hfacts.
  cbv zeta in Hfacts. rewrite <- Hreg in Hfacts.
  destruct Hfacts as (Hmsgs & _ & Hl & _).
  split.
  - cbn [first_render]. unfold render. cbn [v_transcript].
    rewrite Hmsgs, Hl, length_app.
    destruct (utterances (map Transport evs)) as [|u us]; [contradiction|].
    cbn [length]. rewrite Nat.add_succ_r. cbn [Nat.ltb Nat.leb].
    now rewrite Hp.
  - subst settled.
    rewrite (panel_of_state p _ (step_in_panel p wf w (Batch evs) Hw Hp)).
    cbn [step_in]. rewrite react_ctrl.
    destruct (commit_frame p (ctrl w) (emit_all (registry w) evs (ctrl w)))
      as (_ & -> & _).
    rewrite Hmsgs.
    destruct (utterances (map Transport evs)) as [|u us] eqn:Hus;
      [contradiction|].
    rewrite last_app.
    destruct (last (u :: us)) as [x|] eqn:Hlast; [reflexivity|].
    now apply last_None in Hlast.
Qed.

Lemma transcript_panel_shows_latest_utterance_witness :
  foreign_only [] = true /\
  v_transcript (render review_props
    (ctrl (fst (session_in review_props None []
                  [Single (Click BtnCall); Single (Transport EvCallStart);
                   Batch [EvMessage (transcript_msg "final" assistant "Hello");
                          EvMessage (transcript_msg "final" user "Hi")]]))))
  = Some "Hi".
Proof.
  split; [reflexivity|].
  exact (proj1 (transcript_panel_shows_latest_utterance review_props None []
    [Single (Click BtnCall); Single (Transport EvCallStart);
     Batch [EvMessage (transcript_msg "final" assistant "Hello");
            EvMessage (transcript_msg "final" user "Hi")]] [] eq_refl)).
Defined.
